(** * Hot-reloading secret cache of [src/app/server.js]

    A shallow embedding of the secret cache, the file watcher and the
    HTTP handlers of the Node.js service, and the properties of its
    reload protocol.

    Conventions of the embedding:
    - a JavaScript string is a [string]; a character stands for one UTF-16
      code unit below 256, which covers every text used here;
    - a [Date] is carried in its [toISOString()] rendering;
    - the filesystem is a finite map from paths to nodes; every call of the
      [fs] module on an existing node has an outcome of its own, so that a
      read can succeed where [stat] fails and the other way round;
    - the module-level [secretCache], the console, the installed watches
      and the pending timers form the process state, threaded through a
      state-and-exception monad: a [throw] keeps the effects made before
      it, as in JavaScript. *)

From Stdlib Require Import String Ascii Bool Arith Lia List.
From stdpp Require Import base option gmap strings list fin_maps.
Import ListNotations.

Local Open Scope string_scope.

(** ** Strings *)

Module JsString.

(** The newline of the secret files. *)
Definition LF : ascii := ascii_of_nat 10.

(** WhiteSpace and LineTerminator code units below 256:
    TAB, LF, VT, FF, CR, SP and NBSP. *)
Definition is_ws (c : ascii) : bool :=
  let n := nat_of_ascii c in
  Nat.eqb n 9 || Nat.eqb n 10 || Nat.eqb n 11 || Nat.eqb n 12
  || Nat.eqb n 13 || Nat.eqb n 32 || Nat.eqb n 160.

(** [String.prototype.trimStart]. *)
Fixpoint trimStart (s : string) : string :=
  match s with
  | EmptyString => EmptyString
  | String c s' => if is_ws c then trimStart s' else s
  end.

(** [String.prototype.trimEnd]. *)
Fixpoint trimEnd (s : string) : string :=
  match s with
  | EmptyString => EmptyString
  | String c s' =>
      match trimEnd s' with
      | EmptyString => if is_ws c then EmptyString else String c EmptyString
      | String d t => String c (String d t)
      end
  end.

(** [String.prototype.trim]: white space removed at both ends. *)
Definition trim (s : string) : string := trimEnd (trimStart s).

(** [a || b] on a possibly undefined string: the empty string is falsy. *)
Definition or_else (a : option string) (b : string) : string :=
  match a with
  | Some s => if String.eqb s "" then b else s
  | None => b
  end.

(** [a === b] where [a] may be [null]. *)
Definition strict_eq (a : option string) (b : string) : bool :=
  match a with
  | Some s => String.eqb s b
  | None => false
  end.

End JsString.

Import JsString.

(** ** Exceptions *)

Record Error := { message : string }.

Inductive result (A : Type) : Type :=
| Ok (a : A)
| Throw (e : Error).

Arguments Ok {A} a.
Arguments Throw {A} e.

Definition is_ok {A} (r : result A) : bool :=
  match r with Ok _ => true | Throw _ => false end.

(** ** The environment: [process.env], the filesystem and the clock *)

Record Env := {
  env_PORT : option string;
  env_SECRET_PATH : option string;
  env_NODE_ENV : option string
}.

(** [const PORT = process.env.PORT || 3000] *)
Definition PORT (e : Env) : string := or_else (env_PORT e) "3000".

Definition DEFAULT_SECRET_PATH : string := "/mnt/secrets-store/my-secret".

(** [const SECRET_PATH = process.env.SECRET_PATH || "/mnt/secrets-store/my-secret"] *)
Definition SECRET_PATH (e : Env) : string :=
  or_else (env_SECRET_PATH e) DEFAULT_SECRET_PATH.

(** [process.env.NODE_ENV === 'test'] *)
Definition test_env (e : Env) : bool := strict_eq (env_NODE_ENV e) "test".

(** The directory literal ['/mnt/secrets-store'] of the source. *)
Definition SECRETS_STORE : string := "/mnt/secrets-store".

(** The result of [fs.statSync]: only [mtime] is used. *)
Record Stats := { mtime : string }.

(** What the calls of the [fs] module give on an existing path. *)
Record Node := {
  content : result string;    (* fs.readFileSync(path, "utf8") *)
  stat : result Stats;        (* fs.statSync(path) *)
  realpath : result string;   (* fs.realpathSync(path) *)
  watchable : result unit     (* fs.watch(path, ...) *)
}.

Abbreviation FS := (gmap string Node).

Definition ENOENT (syscall path : string) : Error :=
  {| message := "ENOENT: no such file or directory, " +:+ syscall
                +:+ " '" +:+ path +:+ "'" |}.

(** [fs.existsSync] never throws. *)
Definition existsSync (fs : FS) (path : string) : bool :=
  match fs !! path with Some _ => true | None => false end.

Definition readFileSync (fs : FS) (path : string) : result string :=
  match fs !! path with
  | Some n => content n
  | None => Throw (ENOENT "open" path)
  end.

Definition statSync (fs : FS) (path : string) : result Stats :=
  match fs !! path with
  | Some n => stat n
  | None => Throw (ENOENT "stat" path)
  end.

Definition realpathSync (fs : FS) (path : string) : result string :=
  match fs !! path with
  | Some n => realpath n
  | None => Throw (ENOENT "lstat" path)
  end.

Definition watch (fs : FS) (path : string) : result unit :=
  match fs !! path with
  | Some n => watchable n
  | None => Throw (ENOENT "watch" path)
  end.

(** The world a synchronous piece of code runs in; [now] is the rendering
    of [new Date().toISOString()] at that moment. *)
Record World := {
  env : Env;
  fs : FS;
  now : string
}.

(** ** The process state *)

(** [secretCache]; [None] stands for [null] ([value], [lastUpdated]) and
    for the absent property ([fileModified]). *)
Record Cache := {
  value : option string;
  lastUpdated : option string;
  fileModified : option string;
  watcherActive : bool
}.

(** The lines written to the console, one constructor per template. *)
Inductive LogLine : Type :=
| SecretLoaded (at_ : string) (head20 : string)
| ErrorReadingSecret (at_ : string) (msg : string)
| WatcherAlreadyActive
| SkippingWatcherInTest
| SecretDirNotFound
| SettingUpWatcher (dir : string)
| FileChangeDetected (at_ : string) (eventType : string) (filename : string)
| SecretRotated (at_ : string)
| RotatedOld (old : option string)
| RotatedNew (new : string)
| WatcherActive
| WatcherSetupFailed (msg : string)
| ReadOnEachRequest
| Banner (port : string).

(** The lines that go through [console.error]. *)
Definition is_error (l : LogLine) : bool :=
  match l with
  | ErrorReadingSecret _ _ | WatcherSetupFailed _ => true
  | _ => false
  end.

(** A watch installed by [fs.watch(dir, { recursive }, callback)]; the
    source has one callback, [onFsEvent] below. *)
Record Watch := { watch_dir : string; watch_recursive : bool }.

(** A timer armed by [setTimeout(callback, delay)]; the source has one
    callback, [delayedReload] below. *)
Record Timer := { timer_delay : nat }.

Record State := {
  secretCache : Cache;
  console : list LogLine;
  watches : list Watch;
  timers : list Timer
}.

(** The state when the module has been loaded. *)
Definition initial : State :=
  {| secretCache := {| value := None; lastUpdated := None;
                       fileModified := None; watcherActive := false |};
     console := [];
     watches := [];
     timers := [] |}.

(** ** State and exceptions *)

Definition M (A : Type) : Type := State -> State * result A.

Definition ret {A} (a : A) : M A := fun st => (st, Ok a).

Definition bind {A B} (m : M A) (k : A -> M B) : M B :=
  fun st =>
    match m st with
    | (st', Ok a) => k a st'
    | (st', Throw e) => (st', Throw e)
    end.

Definition throw {A} (e : Error) : M A := fun st => (st, Throw e).

(** [try { body } catch (err) { handler }] *)
Definition try_catch {A} (body : M A) (handler : Error -> M A) : M A :=
  fun st =>
    match body st with
    | (st', Ok a) => (st', Ok a)
    | (st', Throw e) => handler e st'
    end.

(** A call of the [fs] module. *)
Definition call {A} (r : result A) : M A := fun st => (st, r).

Definition get_cache : M Cache := fun st => (st, Ok (secretCache st)).

Definition set_cache (c : Cache) : M unit :=
  fun st =>
    ({| secretCache := c; console := console st;
        watches := watches st; timers := timers st |}, Ok tt).

(** [console.log] and [console.error] append a line. *)
Definition console_write (l : LogLine) : M unit :=
  fun st =>
    ({| secretCache := secretCache st; console := console st ++ [l];
        watches := watches st; timers := timers st |}, Ok tt).

Definition add_watch (w : Watch) : M unit :=
  fun st =>
    ({| secretCache := secretCache st; console := console st;
        watches := watches st ++ [w]; timers := timers st |}, Ok tt).

(** [setTimeout] *)
Definition setTimeout (delay : nat) : M unit :=
  fun st =>
    ({| secretCache := secretCache st; console := console st;
        watches := watches st;
        timers := timers st ++ [{| timer_delay := delay |}] |}, Ok tt).

Declare Scope js_scope.
Delimit Scope js_scope with js.
Notation "x <- m ;; k" := (bind m (fun x => k))
  (at level 100, m at next level, right associativity) : js_scope.
Notation "m ;;; k" := (bind m (fun _ => k))
  (at level 100, right associativity) : js_scope.

Local Open Scope js_scope.

(** ** The secret cache *)

Definition TEST_SECRET_VALUE : string := "TEST_SECRET_VALUE".
Definition SECRET_NOT_AVAILABLE : string := "SECRET_NOT_AVAILABLE".

(** [function readSecretFromDisk()] *)
Definition readSecretFromDisk (w : World) : M string :=
  try_catch
    (text <- call (readFileSync (fs w) (SECRET_PATH (env w))) ;;
     let value := trim text in
     stats <- call (statSync (fs w) (SECRET_PATH (env w))) ;;
     old <- get_cache ;;
     set_cache {| value := Some value;
                  lastUpdated := Some (now w);
                  fileModified := Some (mtime stats);
                  watcherActive := watcherActive old |} ;;;
     console_write (SecretLoaded (now w) (substring 0 20 value)) ;;;
     ret value)
    (fun err =>
       if test_env (env w) || negb (existsSync (fs w) SECRETS_STORE)
       then ret TEST_SECRET_VALUE
       else
         console_write (ErrorReadingSecret (now w) (message err)) ;;;
         ret SECRET_NOT_AVAILABLE).

(** [function getSecret()] *)
Definition getSecret (w : World) : M string := readSecretFromDisk w.

(** ** The file watcher *)

(** The callback given to [fs.watch]; [filename] may be [null]. *)
Definition onFsEvent (w : World) (eventType : string)
    (filename : option string) : M unit :=
  match filename with
  | Some name =>
      if String.eqb name "my-secret" || String.eqb name "..data"
      then
        console_write (FileChangeDetected (now w) eventType name) ;;;
        setTimeout 100
      else ret tt
  | None => ret tt
  end.

(** The callback given to [setTimeout] by [onFsEvent]. *)
Definition delayedReload (w : World) : M unit :=
  c <- get_cache ;;
  let oldValue := value c in
  newValue <- readSecretFromDisk w ;;
  if negb (strict_eq oldValue newValue)
  then
    console_write (SecretRotated (now w)) ;;;
    console_write (RotatedOld oldValue) ;;;
    console_write (RotatedNew newValue)
  else ret tt.

(** [function setupFileWatcher()]; [fs.watch] installs the watch unless it
    throws, and [secretCache.watcherActive = true] updates the cache in
    place. *)
Definition setupFileWatcher (w : World) : M unit :=
  c <- get_cache ;;
  if watcherActive c then console_write WatcherAlreadyActive
  else if test_env (env w) then console_write SkippingWatcherInTest
  else
    let watchDir := SECRETS_STORE in
    if negb (existsSync (fs w) watchDir)
    then console_write SecretDirNotFound
    else
      try_catch
        (console_write (SettingUpWatcher watchDir) ;;;
         call (watch (fs w) watchDir) ;;;
         add_watch {| watch_dir := watchDir; watch_recursive := false |} ;;;
         c' <- get_cache ;;
         set_cache {| value := value c';
                      lastUpdated := lastUpdated c';
                      fileModified := fileModified c';
                      watcherActive := true |} ;;;
         console_write WatcherActive)
        (fun err =>
           console_write (WatcherSetupFailed (message err)) ;;;
           console_write ReadOnEachRequest).

(** ** The endpoints *)

#[warning="-register-all"]
Inductive Json : Type :=
| JNull
| JBool (b : bool)
| JString (s : string)
| JObject (fields : list (string * Json)).

(** A value that is a string or [null]. *)
Definition nullable (o : option string) : Json :=
  match o with Some s => JString s | None => JNull end.

Inductive Body : Type :=
| SendJson (j : Json)
| SendText (s : string).

Record Response := { status : nat; body : Body }.

(** [res.json(obj)], with the default status 200. *)
Definition res_json (fields : list (string * Json)) : Response :=
  {| status := 200; body := SendJson (JObject fields) |}.

(** [res.status(code).json(obj)] *)
Definition res_status_json (code : nat) (fields : list (string * Json))
    : Response :=
  {| status := code; body := SendJson (JObject fields) |}.

(** [res.status(code).send(text)] *)
Definition res_status_send (code : nat) (text : string) : Response :=
  {| status := code; body := SendText text |}.

(** The field of a JSON object, as a test reads [response.body.name]. *)
Fixpoint field (name : string) (fields : list (string * Json))
    : option Json :=
  match fields with
  | [] => None
  | (k, v) :: rest => if String.eqb k name then Some v else field name rest
  end.

Definition body_field (name : string) (r : Response) : option Json :=
  match body r with
  | SendJson (JObject fields) => field name fields
  | _ => None
  end.

(** [app.get("/", ...)] *)
Definition get_root (w : World) : M Response :=
  c <- get_cache ;;
  ret (res_json
         [("service", JString "my-node-app");
          ("status", JString "running");
          ("version", JString "2.0.0-hot-reload");
          ("features", JObject [("fileWatching", JBool (watcherActive c));
                                ("hotReload", JBool true)])]).

(** [app.get("/health", ...)] *)
Definition get_health (w : World) : M Response :=
  ret (res_status_send 200 "OK").

(** [app.get("/config", ...)]: the fields are evaluated in order, the
    cache is read after [getSecret()] has run. *)
Definition get_config (w : World) : M Response :=
  mySecret <- getSecret w ;;
  c <- get_cache ;;
  ret (res_json
         [("mySecret", JString mySecret);
          ("timestamp", JString (now w));
          ("lastUpdated", nullable (lastUpdated c));
          ("fileWatcherActive", JBool (watcherActive c))]).

(** [app.get("/secret-info", ...)] *)
Definition get_secret_info (w : World) : M Response :=
  let path := SECRET_PATH (env w) in
  try_catch
    (if negb (existsSync (fs w) path)
     then
       v <- getSecret w ;;
       ret (res_json
              [("value", JString v);
               ("path", JString path);
               ("exists", JBool false);
               ("mode", JString "fallback")])
     else
       stats <- call (statSync (fs w) path) ;;
       realPath <- call (realpathSync (fs w) path) ;;
       v <- getSecret w ;;
       c <- get_cache ;;
       ret (res_json
              [("value", JString v);
               ("path", JString path);
               ("realPath", JString realPath);
               ("isSymlink", JBool (negb (String.eqb realPath path)));
               ("fileModified", JString (mtime stats));
               ("cacheLastUpdated", nullable (lastUpdated c));
               ("watcherActive", JBool (watcherActive c))]))
    (fun err => ret (res_status_json 500 [("error", JString (message err))])).

(** [app.get("/trigger-reload", ...)] *)
Definition get_trigger_reload (w : World) : M Response :=
  c <- get_cache ;;
  let oldValue := value c in
  newValue <- readSecretFromDisk w ;;
  ret (res_json
         [("message", JString "Manual reload triggered");
          ("changed", JBool (negb (strict_eq oldValue newValue)));
          ("oldValue", nullable oldValue);
          ("newValue", JString newValue);
          ("timestamp", JString (now w))]).

(** The callback of [app.listen], run when the module is the main one. *)
Definition on_listen (w : World) : M unit :=
  console_write (Banner (PORT (env w))) ;;;
  readSecretFromDisk w ;;;
  setupFileWatcher w.

(** ** The process as a transition system *)

(** The runtime hands a filesystem event of directory [dir] to the
    callback of every watch installed on [dir]. *)
Fixpoint deliver (w : World) (ws : list Watch) (dir eventType : string)
    (filename : option string) : M unit :=
  match ws with
  | [] => ret tt
  | x :: rest =>
      (if String.eqb (watch_dir x) dir
       then onFsEvent w eventType filename
       else ret tt) ;;;
      deliver w rest dir eventType filename
  end.

Definition fs_event (w : World) (dir eventType : string)
    (filename : option string) : M unit :=
  fun st => deliver w (watches st) dir eventType filename st.

(** The oldest pending timer fires and runs its callback. *)
Definition timer_fires (w : World) : M unit :=
  fun st =>
    match timers st with
    | [] => (st, Ok tt)
    | _ :: rest =>
        delayedReload w
          {| secretCache := secretCache st; console := console st;
             watches := watches st; timers := rest |}
    end.

Inductive Route : Type :=
| Root | Health | Config | SecretInfo | TriggerReload.

Definition handler (r : Route) : World -> M Response :=
  match r with
  | Root => get_root
  | Health => get_health
  | Config => get_config
  | SecretInfo => get_secret_info
  | TriggerReload => get_trigger_reload
  end.

(** What can happen to the process. *)
Inductive Op : Type :=
| Listen
| Request (r : Route)
| ReadFromSource
| SetupWatcher
| FsEvent (dir eventType : string) (filename : option string)
| TimerFires.

Inductive Output : Type :=
| Sent (r : Response)
| Returned (v : string)
| Done.

Definition step (w : World) (op : Op) : M Output :=
  match op with
  | Listen => on_listen w ;;; ret Done
  | Request r => (resp <- handler r w ;; ret (Sent resp))
  | ReadFromSource => (v <- readSecretFromDisk w ;; ret (Returned v))
  | SetupWatcher => setupFileWatcher w ;;; ret Done
  | FsEvent dir eventType filename =>
      fs_event w dir eventType filename ;;; ret Done
  | TimerFires => timer_fires w ;;; ret Done
  end.

(** A run: each operation happens in the world of its moment. *)
Fixpoint run (ops : list (World * Op)) (st : State) : State :=
  match ops with
  | [] => st
  | (w, op) :: rest => run rest (fst (step w op st))
  end.

(** The successive values of [watcherActive] along a run. *)
Fixpoint flag_trace (ops : list (World * Op)) (st : State) : list bool :=
  watcherActive (secretCache st) ::
  match ops with
  | [] => []
  | (w, op) :: rest => flag_trace rest (fst (step w op st))
  end.

(** How many times a sequence of flags goes from [false] to [true]. *)
Fixpoint rises (l : list bool) : nat :=
  match l with
  | false :: ((true :: _) as rest) => S (rises rest)
  | _ :: rest => rises rest
  | [] => 0
  end.

(** ** Concrete worlds *)

Definition no_env : Env :=
  {| env_PORT := None; env_SECRET_PATH := None; env_NODE_ENV := None |}.

(** The environment of [server.test.js]: [process.env.NODE_ENV = 'test']. *)
Definition jest_env : Env :=
  {| env_PORT := None; env_SECRET_PATH := None; env_NODE_ENV := Some "test" |}.

Definition EISDIR : Error :=
  {| message := "EISDIR: illegal operation on a directory, read" |}.

(** A directory that can be watched. *)
Definition directory (path : string) : Node :=
  {| content := Throw EISDIR;
     stat := Ok {| mtime := "2024-01-20T12:00:00.000Z" |};
     realpath := Ok path;
     watchable := Ok tt |}.

(** A readable regular file. *)
Definition regular_file (path text modified : string) : Node :=
  {| content := Ok text;
     stat := Ok {| mtime := modified |};
     realpath := Ok path;
     watchable := Ok tt |}.

(** A machine without [/mnt/secrets-store], as where the tests run. *)
Definition jest_world : World :=
  {| env := jest_env; fs := ∅; now := "2024-01-20T12:00:01.000Z" |}.

(** A pod whose secret mount holds ["abc123\n"]. *)
Definition pod_secret : Node :=
  regular_file "/mnt/secrets-store/..2024_01_20_12_01_00.987654321/my-secret"
    ("abc123" +:+ String LF "") "2024-01-20T12:01:00.987Z".

Definition pod_fs : FS :=
  <[DEFAULT_SECRET_PATH := pod_secret]>
  (<[SECRETS_STORE := directory SECRETS_STORE]>
  (<["/mnt" := directory "/mnt"]> ∅)).

Definition pod_world : World :=
  {| env := no_env; fs := pod_fs; now := "2024-01-20T12:05:00.000Z" |}.


(** ** What a reload does *)

(** The two [fs] calls of [readSecretFromDisk], in the order of the source:
    the trimmed text and the stats, or the first exception. *)
Definition disk_read (w : World) : result (string * Stats) :=
  match readFileSync (fs w) (SECRET_PATH (env w)) with
  | Ok text =>
      match statSync (fs w) (SECRET_PATH (env w)) with
      | Ok stats => Ok (trim text, stats)
      | Throw e => Throw e
      end
  | Throw e => Throw e
  end.

(** What a failed read returns: the placeholder in the test environment or
    without [/mnt/secrets-store], the sentinel otherwise. *)
Definition substitute (w : World) : string :=
  if test_env (env w) || negb (existsSync (fs w) SECRETS_STORE)
  then TEST_SECRET_VALUE
  else SECRET_NOT_AVAILABLE.

Definition with_console (st : State) (lines : list LogLine) : State :=
  {| secretCache := secretCache st; console := console st ++ lines;
     watches := watches st; timers := timers st |}.

Definition loaded (w : World) (v : string) (stats : Stats) (st : State)
    : State :=
  {| secretCache := {| value := Some v;
                       lastUpdated := Some (now w);
                       fileModified := Some (mtime stats);
                       watcherActive := watcherActive (secretCache st) |};
     console := console st ++ [SecretLoaded (now w) (substring 0 20 v)];
     watches := watches st;
     timers := timers st |}.

(** The exception that makes [/secret-info] answer 500, if any: the path
    exists and [statSync] or [realpathSync] throws. *)
Definition info_fault (w : World) : option Error :=
  if existsSync (fs w) (SECRET_PATH (env w))
  then
    match statSync (fs w) (SECRET_PATH (env w)) with
    | Throw e => Some e
    | Ok _ =>
        match realpathSync (fs w) (SECRET_PATH (env w)) with
        | Throw e => Some e
        | Ok _ => None
        end
    end
  else None.

(** A pod whose mount directory is there while the secret is not. *)
Definition empty_mount_world : World :=
  {| env := no_env;
     fs := <[SECRETS_STORE := directory SECRETS_STORE]>
           (<["/mnt" := directory "/mnt"]> ∅);
     now := "2024-01-20T12:05:00.000Z" |}.

Definition EIO_read : Error :=
  {| message := "EIO: i/o error, read" |}.

Definition EIO_stat : Error :=
  {| message := "EIO: i/o error, stat '/mnt/secrets-store/my-secret'" |}.

(** A pod whose secret file is listed while reading it and [stat] on it
    fail with an I/O error. *)
Definition stat_fault_world : World :=
  {| env := no_env;
     fs := <[DEFAULT_SECRET_PATH :=
               {| content := Throw EIO_read;
                  stat := Throw EIO_stat;
                  realpath := Ok DEFAULT_SECRET_PATH;
                  watchable := Ok tt |}]>
           (<[SECRETS_STORE := directory SECRETS_STORE]>
           (<["/mnt" := directory "/mnt"]> ∅));
     now := "2024-01-20T12:05:00.000Z" |}.

(** ** Paths *)

(** The text after the last ["/"] of a path: the base filename the
    specification speaks of. *)
Fixpoint basename_from (acc path : string) : string :=
  match path with
  | EmptyString => acc
  | String c rest =>
      if Ascii.eqb c "/" then basename_from "" rest
      else basename_from (acc +:+ String c "") rest
  end.

Definition basename (path : string) : string := basename_from "" path.

(** The event filter in the words of the specification: the name of the
    changed entry is the base filename of the configured secret path, or
    the indirection entry ["..data"]. *)
Definition qualifying_by_spec (e : Env) (name : string) : bool :=
  String.eqb name (basename (SECRET_PATH e)) || String.eqb name "..data".

(** [path] lies below the directory [dir]. *)
Definition under (dir path : string) : bool :=
  negb (String.eqb dir "") && String.prefix (dir +:+ "/") path.

(** The directories a path lies below: ["/a"] and ["/a/b"] for
    ["/a/b/c"]. *)
Fixpoint ancestors_from (pre rest : string) : list string :=
  match rest with
  | EmptyString => []
  | String c rest' =>
      (if Ascii.eqb c "/" && negb (String.eqb pre "") then [pre] else [])
      ++ ancestors_from (pre +:+ String c "") rest'
  end.

Definition ancestors (path : string) : list string := ancestors_from "" path.

(** A filesystem is a tree: what exists lies in directories that exist. *)
Definition hierarchical (fs : FS) : bool :=
  forallb (fun path => forallb (existsSync fs) (ancestors path))
    (map fst (map_to_list fs)).

(** A development machine: no [/mnt/secrets-store], the secret path
    overridden through [process.env.SECRET_PATH]. *)
Definition override_world : World :=
  {| env := {| env_PORT := None;
               env_SECRET_PATH := Some "/tmp/my-secret";
               env_NODE_ENV := None |};
     fs := <["/tmp/my-secret" :=
               regular_file "/tmp/my-secret" ("abc123" +:+ String LF "")
                 "2024-01-20T12:01:00.987Z"]>
           (<["/tmp" := directory "/tmp"]> ∅);
     now := "2024-01-20T12:05:00.000Z" |}.

(** A pod whose secret is mounted under another name than [my-secret]. *)
Definition renamed_secret_world : World :=
  {| env := {| env_PORT := None;
               env_SECRET_PATH := Some "/mnt/secrets-store/db-password";
               env_NODE_ENV := None |};
     fs := <["/mnt/secrets-store/db-password" :=
               regular_file "/mnt/secrets-store/..data/db-password"
                 ("hunter2" +:+ String LF "") "2024-01-20T12:01:00.987Z"]>
           (<[SECRETS_STORE := directory SECRETS_STORE]>
           (<["/mnt" := directory "/mnt"]> ∅));
     now := "2024-01-20T12:05:00.000Z" |}.

(** ** Invariants of a run *)

(** A line written by a successful reload. *)
Definition is_loaded (l : LogLine) : bool :=
  match l with
  | SecretLoaded _ _ => true
  | _ => false
  end.

(** The cached triple. *)
Definition triple (st : State) : option string * option string * option string :=
  (value (secretCache st), lastUpdated (secretCache st),
   fileModified (secretCache st)).

(** One watch when the flag is set, none before. *)
Definition watch_inv (st : State) : Prop :=
  length (watches st) = if watcherActive (secretCache st) then 1 else 0.

(** How an operation may change the state: the flag is never cleared and
    no watch is added once it is set; the invariant on watches is kept;
    the console grows, and the triple changes only if a line of a
    successful reload was written. *)
Record evolves (st st' : State) : Prop := {
  ev_flag :
    watcherActive (secretCache st) = true ->
    watcherActive (secretCache st') = true /\ watches st' = watches st;
  ev_watches : watch_inv st -> watch_inv st';
  ev_console :
    exists extra,
      console st' = (console st ++ extra)%list /\
      (existsb is_loaded extra = true \/ triple st' = triple st)
}.

Definition preserves {A} (m : M A) : Prop :=
  forall st, evolves st (fst (m st)).

(** What [setupFileWatcher] does when the watch can be installed. *)
Definition installed (st : State) : State :=
  {| secretCache := {| value := value (secretCache st);
                       lastUpdated := lastUpdated (secretCache st);
                       fileModified := fileModified (secretCache st);
                       watcherActive := true |};
     console := console st ++ [SettingUpWatcher SECRETS_STORE; WatcherActive];
     watches := watches st ++ [{| watch_dir := SECRETS_STORE;
                                  watch_recursive := false |}];
     timers := timers st |}.

(** The pod after [app.listen] has called back: the secret is loaded and
    the watch installed. *)
Definition pod_running : State := run [(pod_world, Listen)] initial.

(** A run in a pod whose secret never shows up: start, an event on
    [..data] and its timer, then requests. *)
Definition run_without_secret : list (World * Op) :=
  [(empty_mount_world, Listen);
   (empty_mount_world, FsEvent SECRETS_STORE "rename" (Some "..data"));
   (empty_mount_world, TimerFires);
   (empty_mount_world, Request Config);
   (empty_mount_world, Request SecretInfo);
   (empty_mount_world, Request TriggerReload);
   (empty_mount_world, ReadFromSource)].

(** ** Relations kept by every operation *)

(** A command whose effect on the state always lies in the relation [R]. *)
Definition respects (R : State -> State -> Prop) {A} (m : M A) : Prop :=
  forall st, R st (fst (m st)).

(** The cached triple is left alone, or it is replaced as a whole by what
    one read of the secret file in [w] gives. *)
Definition reloads (w : World) (st st' : State) : Prop :=
  triple st' = triple st \/
  exists text stats,
    readFileSync (fs w) (SECRET_PATH (env w)) = Ok text /\
    statSync (fs w) (SECRET_PATH (env w)) = Ok stats /\
    triple st' = (Some (trim text), Some (now w), Some (mtime stats)).

(** The triple is empty, or it comes from one read in one of the worlds
    [ws]. *)
Definition from_one_read (ws : list World) (st : State) : Prop :=
  triple st = (None, None, None) \/
  exists w text stats,
    In w ws /\
    readFileSync (fs w) (SECRET_PATH (env w)) = Ok text /\
    statSync (fs w) (SECRET_PATH (env w)) = Ok stats /\
    triple st = (Some (trim text), Some (now w), Some (mtime stats)).

(** White space at the start and at the end of a string. *)
Definition starts_ws (s : string) : bool :=
  match s with
  | EmptyString => false
  | String c _ => is_ws c
  end.

Fixpoint ends_ws (s : string) : bool :=
  match s with
  | EmptyString => false
  | String c rest =>
      match rest with
      | EmptyString => is_ws c
      | String _ _ => ends_ws rest
      end
  end.

(** The one watch the source installs. *)
Definition store_watch : Watch :=
  {| watch_dir := SECRETS_STORE; watch_recursive := false |}.

(** Whether a call of [setupFileWatcher] installs the watch: the flag is
    unset, [NODE_ENV] is not [test], the directory exists and [fs.watch]
    does not throw. *)
Definition installs (w : World) (st : State) : bool :=
  negb (watcherActive (secretCache st))
  && negb (test_env (env w))
  && existsSync (fs w) SECRETS_STORE
  && is_ok (watch (fs w) SECRETS_STORE).

Definition ENOSPC_watch : Error :=
  {| message := "ENOSPC: System limit for number of file watchers reached, watch '/mnt/secrets-store'" |}.

(** The pod with the secret mounted, on a node that has run out of
    watchers. *)
Definition watch_limit_world : World :=
  {| env := no_env;
     fs := <[DEFAULT_SECRET_PATH := pod_secret]>
           (<[SECRETS_STORE :=
                {| content := Throw EISDIR;
                   stat := Ok {| mtime := "2024-01-20T12:00:00.000Z" |};
                   realpath := Ok SECRETS_STORE;
                   watchable := Throw ENOSPC_watch |}]>
           (<["/mnt" := directory "/mnt"]> ∅));
     now := "2024-01-20T12:04:00.000Z" |}.

(** The test of the watch callback on the name of the changed entry. *)
Definition qualifies (name : string) : bool :=
  String.eqb name "my-secret" || String.eqb name "..data".

(** Events on entries of [/mnt/secrets-store], one after the other. *)
Definition store_events (w : World) (eventType : string)
    (names : list string) : list (World * Op) :=
  map (fun name => (w, FsEvent SECRETS_STORE eventType (Some name))) names.

(** No watch, no timer, the flag unset. *)
Definition unwatched (st : State) : Prop :=
  watches st = [] /\ timers st = []
  /\ watcherActive (secretCache st) = false.

Definition stays_unwatched (st st' : State) : Prop :=
  unwatched st -> unwatched st'.

(** The pod after the secret has been rotated to ["xyz789\n"]. *)
Definition rotated_world : World :=
  {| env := no_env;
     fs := <[DEFAULT_SECRET_PATH :=
               regular_file
                 "/mnt/secrets-store/..2024_01_20_12_09_00.123456789/my-secret"
                 ("xyz789" +:+ String LF "") "2024-01-20T12:09:00.123Z"]>
           (<[SECRETS_STORE := directory SECRETS_STORE]>
           (<["/mnt" := directory "/mnt"]> ∅));
     now := "2024-01-20T12:09:01.000Z" |}.

(** The worlds used below are trees. *)
Example worlds_are_trees :
  hierarchical (fs jest_world) = true
  /\ hierarchical (fs pod_world) = true
  /\ hierarchical (fs empty_mount_world) = true
  /\ hierarchical (fs stat_fault_world) = true
  /\ hierarchical (fs override_world) = true
  /\ hierarchical (fs renamed_secret_world) = true.
Proof. repeat split; vm_compute; reflexivity. Qed.

Lemma readSecretFromDisk_ok w st v stats :
  disk_read w = Ok (v, stats) ->
  readSecretFromDisk w st = (loaded w v stats st, Ok v).
Proof.
  unfold disk_read, readSecretFromDisk, try_catch, bind, call.
  destruct (readFileSync _ _) as [text|e]; [|discriminate].
  destruct (statSync _ _) as [s|e]; [|discriminate].
  intros [= <- <-]. reflexivity.
Qed.

Lemma readSecretFromDisk_throw w st e :
  disk_read w = Throw e ->
  readSecretFromDisk w st =
    (if test_env (env w) || negb (existsSync (fs w) SECRETS_STORE)
     then st
     else with_console st [ErrorReadingSecret (now w) (message e)],
     Ok (substitute w)).
Proof.
  unfold disk_read, readSecretFromDisk, substitute, try_catch, bind, call.
  destruct (readFileSync _ _) as [text|e1].
  - destruct (statSync _ _) as [s|e2]; [discriminate|].
    intros [= <-]. by destruct (_ || _).
  - intros [= <-]. by destruct (_ || _).
Qed.

(** A reload never throws. *)
Lemma readSecretFromDisk_returns w st :
  exists v, snd (readSecretFromDisk w st) = Ok v.
Proof.
  destruct (disk_read w) as [[v s]|e] eqn:E.
  - rewrite (readSecretFromDisk_ok _ _ _ _ E). eauto.
  - rewrite (readSecretFromDisk_throw _ _ _ E). eauto.
Qed.

(** C10: every call of [readSecretFromDisk], whether the read succeeds or
    fails, leaves [watcherActive] as it was: the record written on success
    takes the flag over from the previous one. *)
Theorem readSecretFromDisk_keeps_watcherActive (w : World) (st : State) :
  watcherActive (secretCache (fst (readSecretFromDisk w st)))
  = watcherActive (secretCache st).
Proof.
  destruct (disk_read w) as [[v s]|e] eqn:E.
  - by rewrite (readSecretFromDisk_ok _ _ _ _ E).
  - rewrite (readSecretFromDisk_throw _ _ _ E). by destruct (_ || _).
Qed.

(** C2: a call of [readSecretFromDisk] either succeeds, replaces [value],
    [lastUpdated] and [fileModified] together and returns the trimmed text,
    or fails (the read or the stat throws), leaves the cache exactly as it
    was and returns the placeholder or the sentinel. *)
Theorem readSecretFromDisk_all_or_nothing (w : World) (st : State) :
  let st' := fst (readSecretFromDisk w st) in
  let r := snd (readSecretFromDisk w st) in
  (exists text stats,
      readFileSync (fs w) (SECRET_PATH (env w)) = Ok text /\
      statSync (fs w) (SECRET_PATH (env w)) = Ok stats /\
      r = Ok (trim text) /\
      secretCache st' =
        {| value := Some (trim text);
           lastUpdated := Some (now w);
           fileModified := Some (mtime stats);
           watcherActive := watcherActive (secretCache st) |})
  \/
  (is_ok (readFileSync (fs w) (SECRET_PATH (env w)))
     && is_ok (statSync (fs w) (SECRET_PATH (env w))) = false /\
   secretCache st' = secretCache st /\
   r = Ok (substitute w) /\
   (substitute w = TEST_SECRET_VALUE \/ substitute w = SECRET_NOT_AVAILABLE)).
Proof.
  cbv zeta.
  destruct (disk_read w) as [[v s]|e] eqn:E.
  - left. rewrite (readSecretFromDisk_ok _ _ _ _ E).
    unfold disk_read in E.
    destruct (readFileSync _ _) as [text|?]; [|discriminate].
    destruct (statSync _ _) as [s'|?]; [|discriminate].
    injection E as <- <-. by exists text, s'.
  - right. rewrite (readSecretFromDisk_throw _ _ _ E).
    unfold disk_read in E. repeat split.
    + destruct (readFileSync _ _); [|done].
      by destruct (statSync _ _).
    + by destruct (_ || _).
    + unfold substitute. destruct (_ || _); auto.
Qed.



Lemma existsSync_false fs0 path :
  existsSync fs0 path = false -> fs0 !! path = None.
Proof. unfold existsSync. by destruct (fs0 !! path). Qed.

Lemma disk_read_missing w :
  existsSync (fs w) (SECRET_PATH (env w)) = false ->
  disk_read w = Throw (ENOENT "open" (SECRET_PATH (env w))).
Proof.
  intros H%existsSync_false. unfold disk_read, readFileSync. by rewrite H.
Qed.







(** C3, as stated, fails where the mount directory exists and the secret
    does not: the reduced record carries the sentinel, not the
    placeholder. *)
Lemma secret_info_missing_path_sentinel :
  existsSync (fs empty_mount_world) (SECRET_PATH (env empty_mount_world))
  = false
  /\ snd (get_secret_info empty_mount_world initial)
     = Ok (res_json
             [("value", JString "SECRET_NOT_AVAILABLE");
              ("path", JString "/mnt/secrets-store/my-secret");
              ("exists", JBool false);
              ("mode", JString "fallback")]).
Proof. split; vm_compute; reflexivity. Qed.

(** C3, amended: where the configured secret path does not exist,
    [/secret-info] does not fail, leaves the cache as it was and answers
    the reduced record with [exists = false], whose [value] is what
    [getSecret()] returns there: the placeholder in the test environment
    or without [/mnt/secrets-store], the sentinel otherwise. *)
Theorem secret_info_missing_path (w : World) (st : State) :
  existsSync (fs w) (SECRET_PATH (env w)) = false ->
  snd (get_secret_info w st)
  = Ok (res_json
          [("value",
            JString (if test_env (env w)
                        || negb (existsSync (fs w) SECRETS_STORE)
                     then TEST_SECRET_VALUE else SECRET_NOT_AVAILABLE));
           ("path", JString (SECRET_PATH (env w)));
           ("exists", JBool false);
           ("mode", JString "fallback")])
  /\ secretCache (fst (get_secret_info w st)) = secretCache st.
Proof.
  intros Hex. pose proof (disk_read_missing w Hex) as E.
  unfold get_secret_info, try_catch, bind, getSecret. rewrite Hex. simpl.
  rewrite (readSecretFromDisk_throw w st _ E). unfold substitute.
  by destruct (_ || _).
Qed.

Lemma secret_info_missing_path_witness :
  existsSync (fs jest_world) (SECRET_PATH (env jest_world)) = false
  /\ snd (get_secret_info jest_world initial)
     = Ok (res_json
             [("value", JString "TEST_SECRET_VALUE");
              ("path", JString "/mnt/secrets-store/my-secret");
              ("exists", JBool false);
              ("mode", JString "fallback")])
  /\ secretCache (fst (get_secret_info jest_world initial))
     = secretCache initial.
Proof.
  split; [reflexivity|].
  apply (secret_info_missing_path jest_world initial). reflexivity.
Defined.

(** C4, as stated, fails for [/secret-info]: where the secret path exists
    and [stat] throws, the handler answers status 500 with the message of
    the exception, a failure indication that is neither the sentinel nor a
    status flag. *)
Lemma secret_info_answers_500 :
  snd (get_secret_info stat_fault_world initial)
  = Ok {| status := 500;
          body := SendJson (JObject
                    [("error",
                      JString "EIO: i/o error, stat '/mnt/secrets-store/my-secret'")])
       |}.
Proof. vm_compute. reflexivity. Qed.

Lemma get_secret_info_cases w st :
  exists st' r,
    get_secret_info w st = (st', Ok r) /\
    match info_fault w with
    | Some e => r = res_status_json 500 [("error", JString (message e))]
    | None =>
        status r = 200 /\
        exists v, snd (getSecret w st) = Ok v /\
                  body_field "value" r = Some (JString v)
    end.
Proof.
  unfold get_secret_info, info_fault, try_catch, bind, call, getSecret,
    get_cache.
  destruct (existsSync _ _) eqn:Hex; simpl.
  - destruct (statSync _ _) as [s|e]; simpl; [|eauto].
    destruct (realpathSync _ _) as [rp|e]; simpl; [|eauto].
    destruct (readSecretFromDisk_returns w st) as [v Hv].
    destruct (readSecretFromDisk w st) as [st1 r1]. simpl in Hv. subst r1.
    simpl. eauto 8.
  - destruct (readSecretFromDisk_returns w st) as [v Hv].
    destruct (readSecretFromDisk w st) as [st1 r1]. simpl in Hv. subst r1.
    simpl. eauto 8.
Qed.

(** C4, amended: whatever the filesystem does, [getSecret()],
    [/secret-info] and [/trigger-reload] complete without an exception;
    [getSecret()] returns the trimmed text, the placeholder or the
    sentinel, [/trigger-reload] answers 200 with that value as [newValue],
    and [/secret-info] answers 200 with that value, except where the path
    exists and [statSync] or [realpathSync] throws: there it answers
    status 500 with the message of the exception. *)
Theorem handlers_absorb_faults (w : World) (st : State) :
  (exists st' v,
      getSecret w st = (st', Ok v) /\
      (v = substitute w \/ exists stats, disk_read w = Ok (v, stats))) /\
  (exists st' r v,
      get_trigger_reload w st = (st', Ok r) /\
      status r = 200 /\
      snd (getSecret w st) = Ok v /\
      body_field "newValue" r = Some (JString v)) /\
  (exists st' r,
      get_secret_info w st = (st', Ok r) /\
      match info_fault w with
      | Some e => r = res_status_json 500 [("error", JString (message e))]
      | None =>
          status r = 200 /\
          exists v, snd (getSecret w st) = Ok v /\
                    body_field "value" r = Some (JString v)
      end).
Proof.
  split; [|split].
  - unfold getSecret.
    destruct (disk_read w) as [[v s]|e] eqn:E.
    + rewrite (readSecretFromDisk_ok _ _ _ _ E). eauto 6.
    + rewrite (readSecretFromDisk_throw _ _ _ E). eauto 6.
  - unfold get_trigger_reload, bind, get_cache, getSecret.
    destruct (readSecretFromDisk_returns w st) as [v Hv].
    destruct (readSecretFromDisk w st) as [st1 r1]. simpl in Hv. subst r1.
    simpl. eauto 8.
  - apply get_secret_info_cases.
Qed.

(** *** The directory tree *)

Lemma append_nil (s : string) : "" +:+ s = s.
Proof. reflexivity. Qed.

Lemma append_cons (c : ascii) (a s : string) :
  String c a +:+ s = String c (a +:+ s).
Proof. reflexivity. Qed.

Lemma prefix_split (a p : string) :
  String.prefix a p = true -> exists t, p = a +:+ t.
Proof.
  revert p. induction a as [|c a IH]; intros p H.
  - by exists p.
  - destruct p as [|d p]; simpl in H; [discriminate|].
    destruct (ascii_dec c d) as [->|]; [|discriminate].
    destruct (IH p H) as [t ->]. by exists t.
Qed.

Lemma append_cons_assoc (pre : string) (c : ascii) (s : string) :
  (pre +:+ String c "") +:+ s = pre +:+ String c s.
Proof.
  induction pre as [|x pre IH]; [reflexivity|].
  rewrite !append_cons. by f_equal.
Qed.

Lemma append_empty_r (s : string) : s +:+ "" = s.
Proof.
  induction s as [|c s IH]; [reflexivity|].
  rewrite append_cons. by f_equal.
Qed.

Lemma append_nonempty (pre : string) (c : ascii) (s : string) :
  String.eqb (pre +:+ String c s) "" = false.
Proof. by destruct pre. Qed.

Lemma ancestors_from_In (d t pre : string) :
  String.eqb (pre +:+ d) "" = false ->
  In (pre +:+ d) (ancestors_from pre (d +:+ String "/" t)).
Proof.
  revert pre. induction d as [|c d IH]; intros pre Hne.
  - rewrite append_empty_r in *. rewrite append_nil. simpl.
    rewrite Hne. simpl. by left.
  - rewrite append_cons. simpl. apply in_or_app. right.
    rewrite <- (append_cons_assoc pre c d).
    apply IH. rewrite append_cons_assoc. apply append_nonempty.
Qed.

Lemma under_ancestors (dir path : string) :
  under dir path = true -> In dir (ancestors path).
Proof.
  unfold under, ancestors. intros [Hne Hp]%andb_prop.
  apply negb_true_iff in Hne.
  destruct (prefix_split _ _ Hp) as [t ->].
  replace ((dir +:+ "/") +:+ t) with (dir +:+ String "/" t)
    by (symmetry; apply append_cons_assoc).
  apply (ancestors_from_In dir t ""). exact Hne.
Qed.

(** In a tree, nothing exists below a directory that does not. *)
Lemma hierarchical_absent (fs0 : FS) (dir path : string) :
  hierarchical fs0 = true ->
  existsSync fs0 dir = false ->
  under dir path = true ->
  existsSync fs0 path = false.
Proof.
  unfold hierarchical. intros Hh Hd Hu.
  destruct (existsSync fs0 path) eqn:Hp; [|done].
  unfold existsSync in Hp.
  destruct (fs0 !! path) as [n|] eqn:Hl; [|discriminate].
  rewrite forallb_forall in Hh.
  assert (In path (map fst (map_to_list fs0))) as Hin.
  { apply in_map_iff. exists (path, n). split; [done|].
    apply list_elem_of_In. by apply elem_of_map_to_list. }
  specialize (Hh _ Hin). rewrite forallb_forall in Hh.
  rewrite (Hh dir (under_ancestors _ _ Hu)) in Hd. discriminate.
Qed.

Lemma default_path_under_store :
  under SECRETS_STORE (SECRET_PATH no_env) = true.
Proof. reflexivity. Qed.

(** C6, as stated, fails where the secret path is overridden: without
    [/mnt/secrets-store], [getSecret()] returns the text of the file at
    the overridden path, and [/secret-info] answers the full record, which
    has no [exists] field. *)
Lemma override_reads_without_store :
  existsSync (fs override_world) SECRETS_STORE = false
  /\ snd (getSecret override_world initial) = Ok "abc123"
  /\ (exists r, snd (get_secret_info override_world initial) = Ok r
               /\ body_field "exists" r = None
               /\ body_field "value" r = Some (JString "abc123")).
Proof.
  split; [reflexivity|]. split; [reflexivity|].
  eexists. split; [vm_compute; reflexivity|]. split; reflexivity.
Qed.

(** C6, amended: whenever [/mnt/secrets-store] is absent and the secret
    path lies below it, as the default path does, every [getSecret()] call
    returns ["TEST_SECRET_VALUE"] and [/secret-info] reports
    [exists = false]. *)
Theorem fallback_without_store (w : World) (st : State) :
  hierarchical (fs w) = true ->
  existsSync (fs w) SECRETS_STORE = false ->
  under SECRETS_STORE (SECRET_PATH (env w)) = true ->
  getSecret w st = (st, Ok "TEST_SECRET_VALUE")
  /\ get_secret_info w st
     = (st, Ok (res_json
                  [("value", JString "TEST_SECRET_VALUE");
                   ("path", JString (SECRET_PATH (env w)));
                   ("exists", JBool false);
                   ("mode", JString "fallback")])).
Proof.
  intros Hh Hs Hu.
  pose proof (hierarchical_absent _ _ _ Hh Hs Hu) as Hex.
  pose proof (disk_read_missing w Hex) as E.
  assert (readSecretFromDisk w st = (st, Ok "TEST_SECRET_VALUE")) as Hr.
  { rewrite (readSecretFromDisk_throw w st _ E). unfold substitute.
    rewrite Hs. by rewrite orb_true_r. }
  split; [exact Hr|].
  unfold get_secret_info, try_catch, bind, getSecret.
  rewrite Hex. simpl. by rewrite Hr.
Qed.

Lemma fallback_without_store_witness :
  hierarchical (fs jest_world) = true
  /\ existsSync (fs jest_world) SECRETS_STORE = false
  /\ under SECRETS_STORE (SECRET_PATH (env jest_world)) = true
  /\ getSecret jest_world initial = (initial, Ok "TEST_SECRET_VALUE")
  /\ get_secret_info jest_world initial
     = (initial, Ok (res_json
                  [("value", JString "TEST_SECRET_VALUE");
                   ("path", JString (SECRET_PATH (env jest_world)));
                   ("exists", JBool false);
                   ("mode", JString "fallback")])).
Proof.
  split; [reflexivity|]. split; [reflexivity|]. split; [reflexivity|].
  apply (fallback_without_store jest_world initial); reflexivity.
Defined.

(** *** The event filter *)

(** C5, as stated, fails where the secret path is overridden: an event
    for the base filename of the configured path schedules nothing, and an
    event for [my-secret], which is not that base filename, schedules a
    reload. *)
Lemma filter_ignores_configured_name :
  let st := fst (step renamed_secret_world Listen initial) in
  basename (SECRET_PATH (env renamed_secret_world)) = "db-password"
  /\ qualifying_by_spec (env renamed_secret_world) "db-password" = true
  /\ onFsEvent renamed_secret_world "rename" (Some "db-password") st
     = (st, Ok tt)
  /\ qualifying_by_spec (env renamed_secret_world) "my-secret" = false
  /\ timers (fst (onFsEvent renamed_secret_world "rename"
                    (Some "my-secret") st))
     = [{| timer_delay := 100 |}].
Proof. repeat split; vm_compute; reflexivity. Qed.

(** C5, amended: for every event handed to the watcher, a reload delayed
    by 100 ms is scheduled if and only if the name of the changed entry is
    ["my-secret"], the base filename of the default secret path whatever
    path is configured, or ["..data"]; an event for any other name, or
    without a name, leaves the whole state as it was, and no event changes
    the cache by itself. *)
Theorem watcher_event_filter (w : World) (eventType : string)
    (filename : option string) (st : State) :
  let st' := fst (onFsEvent w eventType filename st) in
  snd (onFsEvent w eventType filename st) = Ok tt
  /\ (filename = Some "my-secret" \/ filename = Some "..data"
      <-> timers st' = (timers st ++ [{| timer_delay := 100 |}])%list)
  /\ (filename = Some "my-secret" \/ filename = Some "..data" \/ st' = st)
  /\ secretCache st' = secretCache st
  /\ basename DEFAULT_SECRET_PATH = "my-secret".
Proof.
  cbv zeta.
  assert (forall l (x : Timer), l <> (l ++ [x])%list) as Hlen.
  { intros l x H. apply (f_equal (@length _)) in H.
    rewrite length_app in H. simpl in H. lia. }
  destruct filename as [name|]; simpl.
  - destruct (String.eqb name "my-secret") eqn:E1; simpl.
    { apply String.eqb_eq in E1 as ->. repeat split; auto. }
    destruct (String.eqb name "..data") eqn:E2; simpl.
    { apply String.eqb_eq in E2 as ->. repeat split; auto. }
    apply String.eqb_neq in E1, E2.
    repeat split; auto.
    + intros [[= ->]|[= ->]]; [by destruct E1|by destruct E2].
    + intros H. by apply Hlen in H.
  - repeat split; auto.
    + intros [|]; discriminate.
    + intros H. by apply Hlen in H.
Qed.

(** *** Every operation evolves the state *)

Lemma evolves_refl st : evolves st st.
Proof.
  constructor; [auto|auto|].
  exists []. rewrite app_nil_r. auto.
Qed.

Lemma evolves_trans st1 st2 st3 :
  evolves st1 st2 -> evolves st2 st3 -> evolves st1 st3.
Proof.
  intros [F1 W1 (x1 & C1 & L1)] [F2 W2 (x2 & C2 & L2)]. constructor.
  - intros H. destruct (F1 H) as [H2 E1]. destruct (F2 H2) as [H3 E2].
    split; [done|congruence].
  - auto.
  - exists (x1 ++ x2)%list. split.
    + by rewrite C2, C1, app_assoc.
    + rewrite existsb_app.
      destruct L1 as [->|T1]; [by left|].
      destruct L2 as [->|T2]; [left; apply orb_true_r|].
      right. congruence.
Qed.

(** Writing to the console or arming a timer changes neither the cache nor
    the watches. *)
Lemma evolves_frame st st' extra :
  secretCache st' = secretCache st ->
  watches st' = watches st ->
  console st' = (console st ++ extra)%list ->
  evolves st st'.
Proof.
  intros Hc Hw Hl. constructor.
  - rewrite Hc, Hw. auto.
  - unfold watch_inv. by rewrite Hc, Hw.
  - exists extra. split; [done|]. right. unfold triple. by rewrite Hc.
Qed.

Lemma evolves_loaded w v stats st : evolves st (loaded w v stats st).
Proof.
  constructor; simpl.
  - auto.
  - unfold watch_inv. auto.
  - eexists. split; [reflexivity|]. by left.
Qed.

Lemma preserves_ret {A} (a : A) : preserves (ret a).
Proof. intros st. apply evolves_refl. Qed.

Lemma preserves_call {A} (r : result A) : preserves (call r).
Proof. intros st. apply evolves_refl. Qed.

Lemma preserves_get_cache : preserves get_cache.
Proof. intros st. apply evolves_refl. Qed.

Lemma preserves_console_write l : preserves (console_write l).
Proof. intros st. by apply (evolves_frame _ _ [l]). Qed.

Lemma preserves_setTimeout d : preserves (setTimeout d).
Proof.
  intros st. apply (evolves_frame _ _ []); simpl; auto.
  by rewrite app_nil_r.
Qed.

Lemma preserves_bind {A B} (m : M A) (k : A -> M B) :
  preserves m -> (forall a, preserves (k a)) -> preserves (bind m k).
Proof.
  intros Hm Hk st. unfold bind. specialize (Hm st).
  destruct (m st) as [st1 [a|e]]; simpl in *; [|done].
  eapply evolves_trans; [exact Hm|apply Hk].
Qed.

Lemma preserves_try_catch {A} (body : M A) (h : Error -> M A) :
  preserves body -> (forall e, preserves (h e)) ->
  preserves (try_catch body h).
Proof.
  intros Hb Hh st. unfold try_catch. specialize (Hb st).
  destruct (body st) as [st1 [a|e]]; simpl in *; [done|].
  eapply evolves_trans; [exact Hb|apply Hh].
Qed.

Lemma preserves_readSecretFromDisk w : preserves (readSecretFromDisk w).
Proof.
  intros st. destruct (disk_read w) as [[v s]|e] eqn:E.
  - rewrite (readSecretFromDisk_ok _ _ _ _ E). apply evolves_loaded.
  - rewrite (readSecretFromDisk_throw _ _ _ E).
    destruct (_ || _); simpl; [apply evolves_refl|].
    by eapply evolves_frame.
Qed.

Lemma setupFileWatcher_cases w st :
  setupFileWatcher w st =
    if watcherActive (secretCache st)
    then (with_console st [WatcherAlreadyActive], Ok tt)
    else if test_env (env w)
    then (with_console st [SkippingWatcherInTest], Ok tt)
    else if negb (existsSync (fs w) SECRETS_STORE)
    then (with_console st [SecretDirNotFound], Ok tt)
    else
      match watch (fs w) SECRETS_STORE with
      | Ok _ => (installed st, Ok tt)
      | Throw e =>
          (with_console st [SettingUpWatcher SECRETS_STORE;
                            WatcherSetupFailed (message e);
                            ReadOnEachRequest], Ok tt)
      end.
Proof.
  unfold setupFileWatcher, bind, get_cache, try_catch, call.
  destruct (watcherActive _) eqn:Ha; [reflexivity|].
  destruct (test_env _); [reflexivity|].
  destruct (negb _); [reflexivity|].
  destruct (watch _ _) as [[]|e]; simpl.
  - unfold installed. simpl.
    by rewrite <- (app_assoc (console st) [_] [_]).
  - unfold with_console, console_write. simpl.
    rewrite <- (app_assoc (console st) [_] [_]). simpl.
    by rewrite <- (app_assoc (console st) [_; _] [_]).
Qed.

Lemma preserves_setupFileWatcher w : preserves (setupFileWatcher w).
Proof.
  intros st. rewrite setupFileWatcher_cases.
  destruct (watcherActive _) eqn:Ha; [by eapply evolves_frame|].
  destruct (test_env _); [by eapply evolves_frame|].
  destruct (negb _); [by eapply evolves_frame|].
  destruct (watch _ _) as [[]|e]; simpl; [|by eapply evolves_frame].
  constructor; simpl.
  - rewrite Ha. discriminate.
  - unfold watch_inv. rewrite Ha. simpl. intros H.
    rewrite length_app, H. reflexivity.
  - eexists. split; [reflexivity|]. by right.
Qed.

(** Walks through a composition of the steps above. *)
Ltac preserve :=
  repeat first
    [ apply preserves_ret
    | apply preserves_call
    | apply preserves_get_cache
    | apply preserves_console_write
    | apply preserves_setTimeout
    | apply preserves_readSecretFromDisk
    | apply preserves_setupFileWatcher
    | apply preserves_bind; [|intros ?]
    | apply preserves_try_catch; [|intros ?] ].

Lemma preserves_onFsEvent w eventType filename :
  preserves (onFsEvent w eventType filename).
Proof.
  unfold onFsEvent. destruct filename as [name|]; [|preserve].
  destruct (_ || _); preserve.
Qed.

Lemma preserves_deliver w ws dir eventType filename :
  preserves (deliver w ws dir eventType filename).
Proof.
  induction ws as [|x ws IH]; simpl; [preserve|].
  apply preserves_bind; [|by intros _].
  destruct (String.eqb _ _); [apply preserves_onFsEvent|preserve].
Qed.

Lemma preserves_delayedReload w : preserves (delayedReload w).
Proof. unfold delayedReload. preserve. destruct (negb _); preserve. Qed.

Lemma preserves_timer_fires w : preserves (timer_fires w).
Proof.
  intros st. unfold timer_fires.
  destruct (timers st) as [|t rest]; [apply evolves_refl|].
  eapply evolves_trans; [|apply preserves_delayedReload].
  apply (evolves_frame _ _ []); simpl; auto. by rewrite app_nil_r.
Qed.

Lemma preserves_handler r w : preserves (handler r w).
Proof.
  destruct r; simpl;
    [unfold get_root|unfold get_health|unfold get_config, getSecret
    |unfold get_secret_info, getSecret|unfold get_trigger_reload];
    preserve.
  destruct (negb _); preserve.
Qed.

Lemma preserves_step w op : preserves (step w op).
Proof.
  destruct op; simpl; unfold on_listen; preserve.
  - apply preserves_handler.
  - intros st. apply preserves_deliver.
  - apply preserves_timer_fires.
Qed.

Lemma run_evolves ops st : evolves st (run ops st).
Proof.
  revert st. induction ops as [|[w op] ops IH]; intros st; simpl.
  - apply evolves_refl.
  - eapply evolves_trans; [apply preserves_step|apply IH].
Qed.

(** *** The watcher flag along a run *)

Lemma flag_trace_head ops st :
  exists t, flag_trace ops st = watcherActive (secretCache st) :: t.
Proof. destruct ops as [|[w op] ops]; simpl; eauto. Qed.

Lemma step_keeps_active w op st :
  watcherActive (secretCache st) = true ->
  watcherActive (secretCache (fst (step w op st))) = true.
Proof. intros H. by destruct (ev_flag _ _ (preserves_step w op st) H). Qed.

Lemma rises_active ops st :
  watcherActive (secretCache st) = true -> rises (flag_trace ops st) = 0.
Proof.
  revert st. induction ops as [|[w op] ops IH]; intros st H; simpl.
  - by rewrite H.
  - rewrite H. pose proof (IH _ (step_keeps_active w op st H)) as H0.
    destruct (flag_trace_head ops (fst (step w op st))) as [t Ht].
    rewrite Ht in *. exact H0.
Qed.

Lemma rises_at_most_once ops st : rises (flag_trace ops st) <= 1.
Proof.
  revert st. induction ops as [|[w op] ops IH]; intros st.
  - simpl. destruct (watcherActive _); simpl; lia.
  - destruct (watcherActive (secretCache st)) eqn:H.
    { rewrite (rises_active _ _ H). lia. }
    simpl. rewrite H. specialize (IH (fst (step w op st))).
    destruct (flag_trace_head ops (fst (step w op st))) as [t Ht].
    rewrite Ht in *.
    destruct (watcherActive (secretCache (fst (step w op st)))) eqn:H'.
    + pose proof (rises_active ops _ H') as H0. rewrite Ht in H0.
      rewrite H0. lia.
    + exact IH.
Qed.

(** C7: calling [setupFileWatcher] while [watcherActive] is set only
    writes a line through [console.log]: it returns without an exception,
    leaves [watcherActive = true] and installs no watch; along any run the
    flag goes from [false] to [true] at most once, and a process never has
    more than one watch. *)
Theorem watcher_setup_once :
  (forall w st,
      watcherActive (secretCache st) = true ->
      setupFileWatcher w st = (with_console st [WatcherAlreadyActive], Ok tt)
      /\ is_error WatcherAlreadyActive = false
      /\ watcherActive (secretCache (fst (setupFileWatcher w st))) = true
      /\ watches (fst (setupFileWatcher w st)) = watches st)
  /\ (forall ops st, rises (flag_trace ops st) <= 1)
  /\ (forall ops, length (watches (run ops initial)) <= 1).
Proof.
  split; [|split].
  - intros w st H. rewrite setupFileWatcher_cases, H. simpl. auto.
  - apply rises_at_most_once.
  - intros ops.
    pose proof (ev_watches _ _ (run_evolves ops initial) eq_refl) as H.
    unfold watch_inv in H. rewrite H. destruct (watcherActive _); lia.
Qed.

Lemma watcher_setup_once_witness :
  watcherActive (secretCache pod_running) = true
  /\ setupFileWatcher pod_world pod_running
     = (with_console pod_running [WatcherAlreadyActive], Ok tt)
  /\ length (watches (fst (setupFileWatcher pod_world pod_running))) = 1.
Proof.
  split; [reflexivity|].
  destruct (proj1 watcher_setup_once pod_world pod_running eq_refl)
    as (H & _ & _ & Hw).
  split; [exact H|]. rewrite Hw. reflexivity.
Defined.

(** *** The cache before the first successful read *)

(** A reload writes its "Secret loaded" line exactly when it succeeds. *)
Lemma load_is_logged w st :
  exists extra,
    console (fst (readSecretFromDisk w st)) = (console st ++ extra)%list
    /\ existsb is_loaded extra = is_ok (disk_read w).
Proof.
  destruct (disk_read w) as [[v s]|e] eqn:E.
  - rewrite (readSecretFromDisk_ok _ _ _ _ E). simpl. eauto.
  - rewrite (readSecretFromDisk_throw _ _ _ E).
    destruct (_ || _); simpl.
    + exists []. by rewrite app_nil_r.
    + eauto.
Qed.

(** C9: as long as no call of [readSecretFromDisk] has succeeded (the
    console holds no "Secret loaded" line, which every successful call and
    nothing else writes), [value] and [lastUpdated] are [null] and
    [fileModified] is absent, whatever reads, reloads, events and requests
    have run: the placeholder and the sentinel are returned and never
    stored. *)
Theorem cache_null_until_loaded (ops : list (World * Op)) :
  existsb is_loaded (console (run ops initial)) = false ->
  value (secretCache (run ops initial)) = None
  /\ lastUpdated (secretCache (run ops initial)) = None
  /\ fileModified (secretCache (run ops initial)) = None.
Proof.
  intros H.
  destruct (ev_console _ _ (run_evolves ops initial)) as (extra & Hc & Hl).
  simpl in Hc. rewrite Hc in H.
  destruct Hl as [Hl|Ht]; [congruence|].
  unfold triple in Ht. simpl in Ht. by injection Ht as -> -> ->.
Qed.

Lemma cache_null_until_loaded_witness :
  existsb is_loaded (console (run run_without_secret initial)) = false
  /\ value (secretCache (run run_without_secret initial)) = None
  /\ lastUpdated (secretCache (run run_without_secret initial)) = None
  /\ fileModified (secretCache (run run_without_secret initial)) = None.
Proof.
  split; [vm_compute; reflexivity|].
  apply (cache_null_until_loaded run_without_secret).
  vm_compute. reflexivity.
Defined.

(** ** Further properties of the code *)

(** *** Trimming *)

Lemma trimStart_starts s : starts_ws (trimStart s) = false.
Proof.
  induction s as [|c s IH]; simpl; [done|].
  destruct (is_ws c) eqn:E; [exact IH|]. simpl. exact E.
Qed.

Lemma trimEnd_ends s : ends_ws (trimEnd s) = false.
Proof.
  induction s as [|c s IH]; simpl; [done|].
  destruct (trimEnd s) as [|d t].
  - destruct (is_ws c) eqn:E; simpl; [done|exact E].
  - exact IH.
Qed.

Lemma trimEnd_starts s : starts_ws s = false -> starts_ws (trimEnd s) = false.
Proof.
  destruct s as [|c s]; simpl; [done|]. intros E.
  destruct (trimEnd s); [rewrite E|]; simpl; exact E.
Qed.

Lemma trimStart_fixed s : starts_ws s = false -> trimStart s = s.
Proof. destruct s as [|c s]; simpl; [done|]. by intros ->. Qed.

Lemma trimEnd_fixed s : ends_ws s = false -> trimEnd s = s.
Proof.
  induction s as [|c s IH]; [done|]. intros E.
  destruct s as [|d t].
  - simpl in *. by rewrite E.
  - change (ends_ws (String d t) = false) in E.
    change (trimEnd (String c (String d t)))
      with (match trimEnd (String d t) with
            | EmptyString =>
                if is_ws c then EmptyString else String c EmptyString
            | String d' t' => String c (String d' t')
            end).
    by rewrite (IH E).
Qed.

Lemma trim_clean s :
  starts_ws (trim s) = false /\ ends_ws (trim s) = false
  /\ trim (trim s) = trim s.
Proof.
  unfold trim.
  pose proof (trimEnd_starts _ (trimStart_starts s)) as H1.
  pose proof (trimEnd_ends (trimStart s)) as H2.
  split; [exact H1|]. split; [exact H2|].
  by rewrite (trimStart_fixed _ H1), (trimEnd_fixed _ H2).
Qed.

(** *** Relations kept through the monad *)

Section Respects.

Context (R : State -> State -> Prop).
Context (R_refl : forall st, R st st).
Context (R_trans : forall a b c, R a b -> R b c -> R a c).

Lemma respects_ret {A} (a : A) : respects R (ret a).
Proof. intros st. apply R_refl. Qed.

Lemma respects_call {A} (r : result A) : respects R (call r).
Proof. intros st. apply R_refl. Qed.

Lemma respects_get_cache : respects R get_cache.
Proof. intros st. apply R_refl. Qed.

Lemma respects_bind {A B} (m : M A) (k : A -> M B) :
  respects R m -> (forall a, respects R (k a)) -> respects R (bind m k).
Proof.
  intros Hm Hk st. unfold bind. specialize (Hm st).
  destruct (m st) as [st1 [a|e]]; simpl in *; [|done].
  eapply R_trans; [exact Hm|apply Hk].
Qed.

Lemma respects_try_catch {A} (body : M A) (h : Error -> M A) :
  respects R body -> (forall e, respects R (h e)) ->
  respects R (try_catch body h).
Proof.
  intros Hb Hh st. unfold try_catch. specialize (Hb st).
  destruct (body st) as [st1 [a|e]]; simpl in *; [done|].
  eapply R_trans; [exact Hb|apply Hh].
Qed.

End Respects.

(** Walks through a composition, given the reflexivity and transitivity of
    the relation and a tactic for the commands that are specific to it. *)
Ltac walk refl trans base :=
  repeat first
    [ base
    | apply (respects_ret _ refl)
    | apply (respects_call _ refl)
    | apply (respects_get_cache _ refl)
    | apply (respects_bind _ trans); [|intros ?]
    | apply (respects_try_catch _ trans); [|intros ?] ].

(** *** The cached triple comes from one read *)

Lemma reloads_refl w st : reloads w st st.
Proof. by left. Qed.

Lemma reloads_trans w a b c : reloads w a b -> reloads w b c -> reloads w a c.
Proof.
  intros [H1|H1] [H2|H2].
  - left. congruence.
  - by right.
  - right. destruct H1 as (t & s & ? & ? & H1). exists t, s.
    repeat split; [done..|congruence].
  - by right.
Qed.

Lemma reloads_console_write w l : respects (reloads w) (console_write l).
Proof. intros st. by left. Qed.

Lemma reloads_setTimeout w d : respects (reloads w) (setTimeout d).
Proof. intros st. by left. Qed.

Lemma disk_read_ok_inv w v stats :
  disk_read w = Ok (v, stats) ->
  exists text,
    readFileSync (fs w) (SECRET_PATH (env w)) = Ok text /\
    statSync (fs w) (SECRET_PATH (env w)) = Ok stats /\
    v = trim text.
Proof.
  unfold disk_read.
  destruct (readFileSync _ _) as [text|]; [|discriminate].
  destruct (statSync _ _) as [s|]; [|discriminate].
  intros [= <- <-]. eauto.
Qed.

Lemma reloads_readSecretFromDisk w :
  respects (reloads w) (readSecretFromDisk w).
Proof.
  intros st. destruct (disk_read w) as [[v s]|e] eqn:E.
  - rewrite (readSecretFromDisk_ok _ _ _ _ E).
    destruct (disk_read_ok_inv _ _ _ E) as (text & Hr & Hs & ->).
    right. exists text, s. by repeat split.
  - rewrite (readSecretFromDisk_throw _ _ _ E). left.
    by destruct (_ || _).
Qed.

Lemma reloads_setupFileWatcher w :
  respects (reloads w) (setupFileWatcher w).
Proof.
  intros st. rewrite setupFileWatcher_cases. left.
  destruct (watcherActive _); [done|].
  destruct (test_env _); [done|].
  destruct (negb _); [done|].
  by destruct (watch _ _).
Qed.

Ltac reload_base :=
  first [ apply reloads_console_write
        | apply reloads_setTimeout
        | apply reloads_readSecretFromDisk
        | apply reloads_setupFileWatcher ].

Ltac reload_walk w :=
  walk (reloads_refl w) (reloads_trans w) reload_base.

Lemma reloads_deliver w ws dir eventType filename :
  respects (reloads w) (deliver w ws dir eventType filename).
Proof.
  induction ws as [|x ws IH]; simpl; [reload_walk w|].
  apply (respects_bind _ (reloads_trans w)); [|by intros _].
  destruct (String.eqb _ _); [|reload_walk w].
  unfold onFsEvent. destruct filename as [name|]; [|reload_walk w].
  destruct (_ || _); reload_walk w.
Qed.

Lemma reloads_timer_fires w : respects (reloads w) (timer_fires w).
Proof.
  assert (respects (reloads w) (delayedReload w)) as H.
  { unfold delayedReload. reload_walk w. destruct (negb _); reload_walk w. }
  intros st. unfold timer_fires.
  destruct (timers st) as [|t rest]; [by left|].
  eapply reloads_trans; [|apply H]. by left.
Qed.

Lemma reloads_step w op : respects (reloads w) (step w op).
Proof.
  destruct op as [|r| | | |]; simpl.
  - unfold on_listen. reload_walk w.
  - destruct r; simpl;
      [unfold get_root|unfold get_health|unfold get_config, getSecret
      |unfold get_secret_info, getSecret|unfold get_trigger_reload];
      reload_walk w.
    destruct (negb _); reload_walk w.
  - reload_walk w.
  - reload_walk w.
  - reload_walk w. intros st. apply reloads_deliver.
  - reload_walk w. apply reloads_timer_fires.
Qed.

Lemma run_from_one_read ops ws st :
  from_one_read ws st -> from_one_read (ws ++ map fst ops) (run ops st).
Proof.
  revert ws st. induction ops as [|[w op] ops IH]; intros ws st H; simpl.
  - by rewrite app_nil_r.
  - replace (ws ++ w :: map fst ops)%list
      with ((ws ++ [w]) ++ map fst ops)%list
      by (by rewrite <- app_assoc).
    apply IH.
    destruct (reloads_step w op st) as [Hs|(text & stats & Hr & Hs & Ht)].
    + destruct H as [H|(w0 & t0 & s0 & Hin & ? & ? & H)].
      * left. congruence.
      * right. exists w0, t0, s0. repeat split; [|done..|congruence].
        apply in_or_app. by left.
    + right. exists w, text, stats. repeat split; [|done..].
      apply in_or_app. right. by left.
Qed.

(** X1: over any run of the process, the cached [value], [lastUpdated] and
    [fileModified] are all three unset, or all three come from one and the
    same read: the trimmed text and the modification time the secret file
    had in the world of one operation of the run, and the time of that
    operation. *)
Theorem cache_is_one_snapshot (ops : list (World * Op)) :
  triple (run ops initial) = (None, None, None) \/
  exists w text stats,
    In w (map fst ops) /\
    readFileSync (fs w) (SECRET_PATH (env w)) = Ok text /\
    statSync (fs w) (SECRET_PATH (env w)) = Ok stats /\
    triple (run ops initial)
    = (Some (trim text), Some (now w), Some (mtime stats)).
Proof.
  apply (run_from_one_read ops [] initial). by left.
Qed.

(** X2: over any run of the process, a cached [value] never starts or ends
    with white space: it is a fixed point of [trim]. *)
Theorem cached_value_is_trimmed (ops : list (World * Op)) (v : string) :
  value (secretCache (run ops initial)) = Some v ->
  starts_ws v = false /\ ends_ws v = false /\ trim v = v.
Proof.
  intros Hv.
  destruct (run_from_one_read ops [] initial) as [H|H]; [by left|..].
  - unfold triple in H. congruence.
  - destruct H as (w & text & stats & _ & _ & _ & H).
    unfold triple in H. rewrite Hv in H. injection H as -> _ _.
    apply trim_clean.
Qed.

Lemma cached_value_is_trimmed_witness :
  value (secretCache (run [(pod_world, Listen)] initial)) = Some "abc123"
  /\ starts_ws "abc123" = false /\ ends_ws "abc123" = false
  /\ trim "abc123" = "abc123".
Proof.
  split; [vm_compute; reflexivity|].
  apply (cached_value_is_trimmed [(pod_world, Listen)] "abc123").
  vm_compute. reflexivity.
Defined.

(** *** Setting up the watcher *)

(** X3: [setupFileWatcher] never throws. It installs one non-recursive
    watch on [/mnt/secrets-store] and sets [watcherActive] exactly when the
    flag was unset, [NODE_ENV] is not [test], the directory exists and
    [fs.watch] does not throw; in every other case the flag and the watches
    stay as they were. It never touches the cached secret nor the
    timers. *)
Theorem setupFileWatcher_outcome (w : World) (st : State) :
  let st' := fst (setupFileWatcher w st) in
  snd (setupFileWatcher w st) = Ok tt
  /\ watcherActive (secretCache st')
     = watcherActive (secretCache st) || installs w st
  /\ watches st'
     = (watches st ++ (if installs w st then [store_watch] else []))%list
  /\ triple st' = triple st
  /\ timers st' = timers st.
Proof.
  cbv zeta. rewrite setupFileWatcher_cases. unfold installs.
  destruct (watcherActive _) eqn:Ha; simpl.
  { by rewrite app_nil_r. }
  destruct (test_env _); simpl.
  { by rewrite Ha, app_nil_r. }
  destruct (existsSync _ _); simpl.
  2:{ by rewrite Ha, app_nil_r. }
  destruct (watch _ _) as [[]|e]; simpl.
  - done.
  - by rewrite Ha, app_nil_r.
Qed.

(** X4: when [fs.watch] throws, the exception is caught: its message is
    written through [console.error], no watch is installed and
    [watcherActive] stays unset, so that a later call of
    [setupFileWatcher], once [fs.watch] works, installs the watch. *)
Theorem failed_setup_can_be_retried (w1 w2 : World) (st : State)
    (e : Error) :
  watcherActive (secretCache st) = false ->
  test_env (env w1) = false ->
  existsSync (fs w1) SECRETS_STORE = true ->
  watch (fs w1) SECRETS_STORE = Throw e ->
  installs w2 st = true ->
  let st1 := fst (setupFileWatcher w1 st) in
  let st2 := fst (setupFileWatcher w2 st1) in
  setupFileWatcher w1 st
  = (with_console st [SettingUpWatcher SECRETS_STORE;
                      WatcherSetupFailed (message e);
                      ReadOnEachRequest], Ok tt)
  /\ is_error (WatcherSetupFailed (message e)) = true
  /\ watcherActive (secretCache st2) = true
  /\ watches st2 = (watches st ++ [store_watch])%list.
Proof.
  intros Ha Ht Hx Hw Hi. cbv zeta.
  rewrite (setupFileWatcher_cases w1), Ha, Ht, Hx, Hw. simpl.
  split; [done|]. split; [done|].
  unfold installs in Hi.
  apply andb_prop in Hi as [Hi H4]. apply andb_prop in Hi as [Hi H3].
  apply andb_prop in Hi as [_ H2]. apply negb_true_iff in H2.
  rewrite setupFileWatcher_cases. simpl. rewrite Ha, H2, H3. simpl.
  revert H4. destruct (watch (fs w2) _) as [[]|]; [|discriminate]. by simpl.
Qed.

Lemma failed_setup_can_be_retried_witness :
  watcherActive (secretCache initial) = false
  /\ test_env (env watch_limit_world) = false
  /\ existsSync (fs watch_limit_world) SECRETS_STORE = true
  /\ watch (fs watch_limit_world) SECRETS_STORE = Throw ENOSPC_watch
  /\ installs pod_world initial = true
  /\ watches (fst (setupFileWatcher pod_world
                     (fst (setupFileWatcher watch_limit_world initial))))
     = [store_watch].
Proof.
  do 5 (split; [vm_compute; reflexivity|]).
  exact (proj2 (proj2 (proj2
           (failed_setup_can_be_retried watch_limit_world pod_world initial
              ENOSPC_watch eq_refl eq_refl eq_refl eq_refl eq_refl)))).
Defined.

(** *** Reading the secret *)

(** X5: what [getSecret()] returns depends on the files and the
    environment only, never on what is cached: when the read fails it
    returns the placeholder or the sentinel, whatever good value the cache
    holds, and leaves that cache as it is. *)
Theorem getSecret_ignores_cache (w : World) (st st' : State) :
  snd (getSecret w st) = snd (getSecret w st')
  /\ (is_ok (disk_read w) = true
      \/ (snd (getSecret w st) = Ok (substitute w)
          /\ secretCache (fst (getSecret w st)) = secretCache st)).
Proof.
  unfold getSecret. destruct (disk_read w) as [[v s]|e] eqn:E.
  - rewrite !(readSecretFromDisk_ok _ _ _ _ E). auto.
  - rewrite !(readSecretFromDisk_throw _ _ _ E). split; [done|]. right.
    by destruct (_ || _).
Qed.


Lemma substring_head_length n s :
  String.length (substring 0 n s) = Nat.min n (String.length s).
Proof.
  revert s. induction n as [|n IH]; intros [|c s]; simpl; auto.
Qed.

Lemma substring_head_prefix n s : String.prefix (substring 0 n s) s = true.
Proof.
  revert s. induction n as [|n IH]; intros [|c s]; simpl; auto.
  destruct (ascii_dec c c); [apply IH|done].
Qed.

(** X7: the line a successful [readSecretFromDisk] writes to the console
    shows a prefix of the secret of at most 20 characters, the whole secret
    when it is not longer. *)
Theorem load_line_shows_20_characters (w : World) (st : State)
    (v : string) (stats : Stats) :
  disk_read w = Ok (v, stats) ->
  exists head,
    console (fst (readSecretFromDisk w st))
    = (console st ++ [SecretLoaded (now w) head])%list
    /\ String.prefix head v = true
    /\ String.length head = Nat.min 20 (String.length v).
Proof.
  intros E. rewrite (readSecretFromDisk_ok _ _ _ _ E). simpl.
  eexists. split; [reflexivity|].
  split; [apply substring_head_prefix|apply substring_head_length].
Qed.

Lemma load_line_shows_20_characters_witness :
  disk_read pod_world = Ok ("abc123", {| mtime := "2024-01-20T12:01:00.987Z" |})
  /\ exists head,
       console (fst (readSecretFromDisk pod_world initial))
       = (console initial ++ [SecretLoaded (now pod_world) head])%list
       /\ String.prefix head "abc123" = true
       /\ String.length head = Nat.min 20 (String.length "abc123").
Proof.
  split; [vm_compute; reflexivity|].
  apply (load_line_shows_20_characters pod_world initial "abc123"
           {| mtime := "2024-01-20T12:01:00.987Z" |}).
  vm_compute. reflexivity.
Defined.

(** *** Detecting a rotation *)

Lemma snoc3 {A} (l : list A) (a b c : A) :
  (((l ++ [a]) ++ [b]) ++ [c] = l ++ [a; b; c])%list.
Proof. by rewrite <- !app_assoc. Qed.

(** X8: when the cache holds a value and the read succeeds,
    [/trigger-reload] answers with the cached value as [oldValue], the
    trimmed text as [newValue] and [changed] telling whether the two
    differ, and the cache then holds the new value. *)
Theorem trigger_reload_reports_rotation (w : World) (st : State)
    (v1 v2 : string) (stats : Stats) :
  value (secretCache st) = Some v1 ->
  disk_read w = Ok (v2, stats) ->
  snd (get_trigger_reload w st)
  = Ok (res_json
          [("message", JString "Manual reload triggered");
           ("changed", JBool (negb (String.eqb v1 v2)));
           ("oldValue", JString v1);
           ("newValue", JString v2);
           ("timestamp", JString (now w))])
  /\ value (secretCache (fst (get_trigger_reload w st))) = Some v2.
Proof.
  intros Hv E. unfold get_trigger_reload, bind, get_cache.
  rewrite (readSecretFromDisk_ok _ _ _ _ E). simpl. by rewrite Hv.
Qed.

Lemma trigger_reload_reports_rotation_witness :
  value (secretCache pod_running) = Some "abc123"
  /\ disk_read rotated_world
     = Ok ("xyz789", {| mtime := "2024-01-20T12:09:00.123Z" |})
  /\ snd (get_trigger_reload rotated_world pod_running)
     = Ok (res_json
             [("message", JString "Manual reload triggered");
              ("changed", JBool true);
              ("oldValue", JString "abc123");
              ("newValue", JString "xyz789");
              ("timestamp", JString (now rotated_world))]).
Proof.
  split; [vm_compute; reflexivity|]. split; [vm_compute; reflexivity|].
  exact (proj1 (trigger_reload_reports_rotation rotated_world pod_running
                  "abc123" "xyz789"
                  {| mtime := "2024-01-20T12:09:00.123Z" |}
                  eq_refl eq_refl)).
Defined.

(** X9: when the read succeeds, the delayed reload of the watcher loads
    the new value and writes the three rotation lines exactly when the
    trimmed text differs from the value cached before, [null] included. *)
Theorem delayed_reload_logs_rotation (w : World) (st : State) (v : string)
    (stats : Stats) :
  disk_read w = Ok (v, stats) ->
  delayedReload w st
  = (if strict_eq (value (secretCache st)) v
     then loaded w v stats st
     else with_console (loaded w v stats st)
            [SecretRotated (now w);
             RotatedOld (value (secretCache st));
             RotatedNew v],
     Ok tt).
Proof.
  intros E. unfold delayedReload, bind, get_cache.
  rewrite (readSecretFromDisk_ok _ _ _ _ E). simpl.
  destruct (strict_eq _ _); simpl; [done|].
  unfold with_console, console_write. simpl. by rewrite snoc3.
Qed.

Lemma delayed_reload_logs_rotation_witness :
  disk_read rotated_world
  = Ok ("xyz789", {| mtime := "2024-01-20T12:09:00.123Z" |})
  /\ console (fst (delayedReload rotated_world pod_running))
     = (console pod_running
        ++ [SecretLoaded (now rotated_world) "xyz789";
            SecretRotated (now rotated_world);
            RotatedOld (Some "abc123");
            RotatedNew "xyz789"])%list.
Proof.
  split; [vm_compute; reflexivity|].
  rewrite (delayed_reload_logs_rotation rotated_world pod_running "xyz789"
             {| mtime := "2024-01-20T12:09:00.123Z" |} eq_refl).
  vm_compute. reflexivity.
Defined.

(** X10: when the read fails, the delayed reload leaves the cache as it
    was and still writes the three rotation lines, with the placeholder or
    the sentinel as the new value, unless the cached value is that very
    string. *)
Theorem failed_delayed_reload_reports_rotation (w : World) (st : State)
    (e : Error) :
  disk_read w = Throw e ->
  strict_eq (value (secretCache st)) (substitute w) = false ->
  exists lines,
    console (fst (delayedReload w st))
    = (console st ++ lines ++ [SecretRotated (now w);
                               RotatedOld (value (secretCache st));
                               RotatedNew (substitute w)])%list
    /\ secretCache (fst (delayedReload w st)) = secretCache st
    /\ snd (delayedReload w st) = Ok tt.
Proof.
  intros E Hne. unfold delayedReload, bind, get_cache.
  rewrite (readSecretFromDisk_throw _ _ _ E). simpl. rewrite Hne. simpl.
  destruct (_ || _); simpl.
  - exists []. simpl. split; [|done]. by rewrite snoc3.
  - eexists [_]. simpl. split; [|done].
    rewrite snoc3, <- app_assoc. reflexivity.
Qed.

Lemma failed_delayed_reload_reports_rotation_witness :
  disk_read empty_mount_world
  = Throw (ENOENT "open" "/mnt/secrets-store/my-secret")
  /\ strict_eq (value (secretCache pod_running))
       (substitute empty_mount_world) = false
  /\ exists lines,
       console (fst (delayedReload empty_mount_world pod_running))
       = (console pod_running ++ lines
          ++ [SecretRotated (now empty_mount_world);
              RotatedOld (value (secretCache pod_running));
              RotatedNew (substitute empty_mount_world)])%list
       /\ secretCache (fst (delayedReload empty_mount_world pod_running))
          = secretCache pod_running
       /\ snd (delayedReload empty_mount_world pod_running) = Ok tt.
Proof.
  split; [vm_compute; reflexivity|]. split; [vm_compute; reflexivity|].
  exact (failed_delayed_reload_reports_rotation empty_mount_world
           pod_running (ENOENT "open" "/mnt/secrets-store/my-secret")
           eq_refl eq_refl).
Defined.

(** *** The reported watcher flag *)

Lemma run_watch_inv ops :
  watcherActive (secretCache (run ops initial))
  = Nat.eqb (length (watches (run ops initial))) 1.
Proof.
  pose proof (ev_watches _ _ (run_evolves ops initial) eq_refl) as H.
  unfold watch_inv in H. rewrite H. by destruct (watcherActive _).
Qed.

Lemma readSecretFromDisk_frame w st :
  watches (fst (readSecretFromDisk w st)) = watches st
  /\ timers (fst (readSecretFromDisk w st)) = timers st
  /\ watcherActive (secretCache (fst (readSecretFromDisk w st)))
     = watcherActive (secretCache st).
Proof.
  destruct (disk_read w) as [[v s]|e] eqn:E.
  - by rewrite (readSecretFromDisk_ok _ _ _ _ E).
  - rewrite (readSecretFromDisk_throw _ _ _ E). by destruct (_ || _).
Qed.

(** X11: over any run of the process, the flag that [/] reports as
    [features.fileWatching] and [/config] as [fileWatcherActive] tells
    whether a watch is installed: it is [true] when there is exactly one
    watch and [false] when there is none. *)
Theorem reported_flag_matches_watches (ops : list (World * Op))
    (w : World) :
  let st := run ops initial in
  let watching := Nat.eqb (length (watches st)) 1 in
  length (watches st) <= 1
  /\ snd (get_root w st)
     = Ok (res_json
             [("service", JString "my-node-app");
              ("status", JString "running");
              ("version", JString "2.0.0-hot-reload");
              ("features", JObject [("fileWatching", JBool watching);
                                    ("hotReload", JBool true)])])
  /\ exists r, snd (get_config w st) = Ok r
       /\ body_field "fileWatcherActive" r = Some (JBool watching).
Proof.
  cbv zeta. pose proof (run_watch_inv ops) as H.
  split.
  { pose proof (ev_watches _ _ (run_evolves ops initial) eq_refl) as Hi.
    unfold watch_inv in Hi. rewrite Hi. destruct (watcherActive _); lia. }
  split.
  - unfold get_root, bind, get_cache, ret. simpl. by rewrite H.
  - unfold get_config, bind, get_cache, getSecret.
    destruct (readSecretFromDisk_frame w (run ops initial)) as (_ & _ & Hf).
    destruct (readSecretFromDisk_returns w (run ops initial)) as [v Hv].
    destruct (readSecretFromDisk w (run ops initial)) as [st1 r1].
    simpl in *. subst r1. simpl. eexists. split; [reflexivity|].
    simpl. by rewrite Hf, H.
Qed.

(** *** The test environment *)

Lemma stays_unwatched_refl st : stays_unwatched st st.
Proof. by intros H. Qed.

Lemma stays_unwatched_trans a b c :
  stays_unwatched a b -> stays_unwatched b c -> stays_unwatched a c.
Proof. unfold stays_unwatched. auto. Qed.

Lemma unwatched_console_write l :
  respects stays_unwatched (console_write l).
Proof. by intros st H. Qed.

Lemma unwatched_readSecretFromDisk w :
  respects stays_unwatched (readSecretFromDisk w).
Proof.
  intros st (Hw & Ht & Hf). unfold unwatched.
  destruct (readSecretFromDisk_frame w st) as (-> & -> & ->). auto.
Qed.

Lemma unwatched_setupFileWatcher w :
  test_env (env w) = true -> respects stays_unwatched (setupFileWatcher w).
Proof.
  intros Ht st (Hw & Hti & Hf). rewrite setupFileWatcher_cases, Hf, Ht.
  by split.
Qed.

Ltac unwatched_walk Ht :=
  walk stays_unwatched_refl stays_unwatched_trans
    ltac:(first [ apply unwatched_console_write
                | apply unwatched_readSecretFromDisk
                | apply (unwatched_setupFileWatcher _ Ht) ]).

Lemma unwatched_step w op :
  test_env (env w) = true -> respects stays_unwatched (step w op).
Proof.
  intros Ht. destruct op as [|r| | |dir ev name|]; simpl.
  - unfold on_listen. unwatched_walk Ht.
  - destruct r; simpl;
      [unfold get_root|unfold get_health|unfold get_config, getSecret
      |unfold get_secret_info, getSecret|unfold get_trigger_reload];
      unwatched_walk Ht.
    destruct (negb _); unwatched_walk Ht.
  - unwatched_walk Ht.
  - unwatched_walk Ht.
  - unwatched_walk Ht. intros st H. unfold fs_event.
    destruct H as (Hw & ? & ?). rewrite Hw. simpl. by split.
  - unwatched_walk Ht. intros st H. unfold timer_fires.
    destruct H as (? & Hti & ?). rewrite Hti. simpl. by split.
Qed.

(** X12: as long as [NODE_ENV] is [test], no watch is installed, no timer
    is armed and [watcherActive] stays unset, whatever is called and
    whatever the filesystem holds. *)
Theorem test_environment_never_watches (ops : list (World * Op)) :
  forallb (fun x => test_env (env (fst x))) ops = true ->
  watches (run ops initial) = []
  /\ timers (run ops initial) = []
  /\ watcherActive (secretCache (run ops initial)) = false.
Proof.
  assert (forall st, unwatched st ->
            forallb (fun x => test_env (env (fst x))) ops = true ->
            unwatched (run ops st)) as H.
  { induction ops as [|[w op] ops IH]; intros st Hu Hall; simpl in *.
    - exact Hu.
    - apply andb_prop in Hall as [Ht Hall].
      apply IH; [|exact Hall]. by apply (unwatched_step w op Ht). }
  intros Hall. by apply (H initial).
Qed.

Lemma test_environment_never_watches_witness :
  let ops := [(jest_world, Listen);
              (jest_world, SetupWatcher);
              (jest_world, FsEvent SECRETS_STORE "rename" (Some "..data"));
              (jest_world, TimerFires);
              (jest_world, Request Config)] in
  forallb (fun x => test_env (env (fst x))) ops = true
  /\ watches (run ops initial) = []
  /\ timers (run ops initial) = []
  /\ watcherActive (secretCache (run ops initial)) = false.
Proof.
  cbv zeta. split; [reflexivity|].
  apply test_environment_never_watches. reflexivity.
Defined.

(** *** Events and timers *)

Lemma fs_event_one_watch w eventType name st :
  watches st = [store_watch] ->
  qualifies name = true ->
  fs_event w SECRETS_STORE eventType (Some name) st
  = ({| secretCache := secretCache st;
        console := console st ++ [FileChangeDetected (now w) eventType name];
        watches := watches st;
        timers := timers st ++ [{| timer_delay := 100 |}] |}, Ok tt).
Proof.
  intros Hw Hq. unfold fs_event. rewrite Hw. simpl.
  unfold bind, onFsEvent. unfold qualifies in Hq. rewrite Hq. simpl.
  by rewrite Hw.
Qed.

(** X13: events are not coalesced: with the watch installed, every event
    on [my-secret] or [..data] arms one more timer of 100 ms, so that [n]
    such events in a row leave [n] more pending reloads; the events by
    themselves change neither the cache nor the watches. *)
Theorem every_event_arms_a_timer (w : World) (eventType : string)
    (names : list string) (st : State) :
  watches st = [store_watch] ->
  forallb qualifies names = true ->
  let st' := run (store_events w eventType names) st in
  timers st'
  = (timers st ++ replicate (length names) {| timer_delay := 100 |})%list
  /\ secretCache st' = secretCache st
  /\ watches st' = watches st.
Proof.
  cbv zeta. revert st.
  induction names as [|name names IH]; intros st Hw Hq; simpl in *.
  - by rewrite app_nil_r.
  - apply andb_prop in Hq as [Hn Hq].
    unfold bind. rewrite (fs_event_one_watch _ _ _ _ Hw Hn). simpl.
    destruct (IH {| secretCache := secretCache st;
                    console := console st
                               ++ [FileChangeDetected (now w) eventType name];
                    watches := watches st;
                    timers := timers st ++ [{| timer_delay := 100 |}] |}
                Hw Hq) as (H1 & H2 & H3).
    fold (store_events w eventType names).
    rewrite H1, H2, H3. simpl. by rewrite <- app_assoc.
Qed.

Lemma every_event_arms_a_timer_witness :
  watches pod_running = [store_watch]
  /\ forallb qualifies ["..data"; "my-secret"; "..data"] = true
  /\ timers (run (store_events pod_world "rename"
                   ["..data"; "my-secret"; "..data"]) pod_running)
     = replicate 3 {| timer_delay := 100 |}.
Proof.
  split; [reflexivity|]. split; [reflexivity|].
  exact (proj1 (every_event_arms_a_timer pod_world "rename"
                  ["..data"; "my-secret"; "..data"] pod_running
                  eq_refl eq_refl)).
Defined.

(** *** Start-up *)

(** X14: at start-up, outside the test environment, with
    [/mnt/secrets-store] present and [fs.watch] working, the watch is
    installed whether the initial read succeeds or not; the cache holds
    what that read gave, or nothing when it failed. *)
Theorem listen_installs_watch (w : World) :
  test_env (env w) = false ->
  existsSync (fs w) SECRETS_STORE = true ->
  watch (fs w) SECRETS_STORE = Ok tt ->
  let st := fst (on_listen w initial) in
  snd (on_listen w initial) = Ok tt
  /\ watcherActive (secretCache st) = true
  /\ watches st = [store_watch]
  /\ timers st = []
  /\ triple st
     = match disk_read w with
       | Ok (v, stats) => (Some v, Some (now w), Some (mtime stats))
       | Throw _ => (None, None, None)
       end.
Proof.
  intros Ht Hx Hw. cbv zeta. unfold on_listen, bind, console_write.
  destruct (disk_read w) as [[v s]|e] eqn:E.
  - rewrite (readSecretFromDisk_ok _ _ _ _ E).
    rewrite setupFileWatcher_cases. simpl. by rewrite Ht, Hx, Hw.
  - rewrite (readSecretFromDisk_throw _ _ _ E). rewrite Ht, Hx. simpl.
    rewrite setupFileWatcher_cases. simpl. by rewrite Ht, Hx, Hw.
Qed.

Lemma listen_installs_watch_witness :
  test_env (env empty_mount_world) = false
  /\ existsSync (fs empty_mount_world) SECRETS_STORE = true
  /\ watch (fs empty_mount_world) SECRETS_STORE = Ok tt
  /\ watches (fst (on_listen empty_mount_world initial)) = [store_watch]
  /\ triple (fst (on_listen empty_mount_world initial)) = (None, None, None).
Proof.
  do 3 (split; [reflexivity|]).
  destruct (listen_installs_watch empty_mount_world eq_refl eq_refl eq_refl)
    as (_ & _ & H1 & _ & H2).
  split; [exact H1|exact H2].
Defined.

(** *** The test suite *)

(** X15: the expectations of [server.test.js] hold in every state, as
    soon as [NODE_ENV] is [test] and the secret path does not exist: the
    five endpoints answer 200, [/] names the service and says it runs,
    [/health] sends ["OK"], [/config] and [/secret-info] carry the
    placeholder, [/config] and [/trigger-reload] carry a timestamp, and
    none of the requests changes the state. *)
Theorem jest_suite_passes (w : World) (st : State) :
  test_env (env w) = true ->
  existsSync (fs w) (SECRET_PATH (env w)) = false ->
  (exists r, get_root w st = (st, Ok r)
     /\ status r = 200
     /\ body_field "service" r = Some (JString "my-node-app")
     /\ body_field "status" r = Some (JString "running"))
  /\ get_health w st = (st, Ok {| status := 200; body := SendText "OK" |})
  /\ (exists r, get_config w st = (st, Ok r)
        /\ status r = 200
        /\ body_field "mySecret" r = Some (JString "TEST_SECRET_VALUE")
        /\ is_Some (body_field "timestamp" r))
  /\ (exists r, get_secret_info w st = (st, Ok r)
        /\ status r = 200
        /\ body_field "value" r = Some (JString "TEST_SECRET_VALUE"))
  /\ (exists r, get_trigger_reload w st = (st, Ok r)
        /\ status r = 200
        /\ is_Some (body_field "message" r)
        /\ is_Some (body_field "timestamp" r)).
Proof.
  intros Ht Hex. pose proof (disk_read_missing w Hex) as E.
  assert (readSecretFromDisk w st = (st, Ok "TEST_SECRET_VALUE")) as Hr.
  { rewrite (readSecretFromDisk_throw _ _ _ E). unfold substitute.
    by rewrite Ht. }
  split; [|split; [|split; [|split]]].
  - unfold get_root, bind, get_cache, ret. simpl. eauto.
  - reflexivity.
  - unfold get_config, bind, get_cache, getSecret. rewrite Hr. simpl.
    eexists. split; [reflexivity|]. repeat split; eauto.
  - unfold get_secret_info, try_catch, bind, getSecret. rewrite Hex. simpl.
    rewrite Hr. simpl. eauto.
  - unfold get_trigger_reload, bind, get_cache. rewrite Hr. simpl.
    eexists. split; [reflexivity|]. repeat split; eauto.
Qed.

Lemma jest_suite_passes_witness :
  test_env (env jest_world) = true
  /\ existsSync (fs jest_world) (SECRET_PATH (env jest_world)) = false
  /\ run [(jest_world, Request Root); (jest_world, Request Health);
          (jest_world, Request Config); (jest_world, Request SecretInfo);
          (jest_world, Request TriggerReload)] initial = initial
  /\ exists r, get_config jest_world initial = (initial, Ok r)
       /\ status r = 200
       /\ body_field "mySecret" r = Some (JString "TEST_SECRET_VALUE")
       /\ is_Some (body_field "timestamp" r).
Proof.
  do 3 (split; [reflexivity|]).
  exact (proj1 (proj2 (proj2
           (jest_suite_passes jest_world initial eq_refl eq_refl)))).
Defined.

(** *** The order of evaluation in [/config] *)

(** X16: [/config] reads [secretCache.lastUpdated] after [getSecret()] has
    run: the [lastUpdated] it reports is the one of the cache after the
    request, which is the time of this very read when the read succeeds
    (never [null] then) and the previous [lastUpdated] when it fails. *)
Theorem config_reports_fresh_lastUpdated (w : World) (st : State) :
  exists st' r,
    get_config w st = (st', Ok r)
    /\ body_field "lastUpdated" r
       = Some (nullable (lastUpdated (secretCache st')))
    /\ lastUpdated (secretCache st')
       = (if is_ok (disk_read w) then Some (now w)
          else lastUpdated (secretCache st)).
Proof.
  unfold get_config, bind, get_cache, getSecret.
  destruct (disk_read w) as [[v s]|e] eqn:E.
  - rewrite (readSecretFromDisk_ok _ _ _ _ E). simpl. eauto.
  - rewrite (readSecretFromDisk_throw _ _ _ E). simpl.
    do 2 eexists. split; [reflexivity|]. split; [reflexivity|].
    by destruct (_ || _).
Qed.

(** *** Debounce *)

Lemma step_event_one_watch w eventType name st :
  watches st = [store_watch] ->
  qualifies name = true ->
  fst (step w (FsEvent SECRETS_STORE eventType (Some name)) st)
  = {| secretCache := secretCache st;
       console := console st ++ [FileChangeDetected (now w) eventType name];
       watches := watches st;
       timers := timers st ++ [{| timer_delay := 100 |}] |}.
Proof.
  intros Hw Hq. simpl. unfold bind.
  by rewrite (fs_event_one_watch _ _ _ _ Hw Hq).
Qed.

Lemma step_timer_loads w st t rest v stats :
  timers st = t :: rest ->
  disk_read w = Ok (v, stats) ->
  exists extra,
    fst (step w TimerFires st)
    = {| secretCache := {| value := Some v;
                           lastUpdated := Some (now w);
                           fileModified := Some (mtime stats);
                           watcherActive := watcherActive (secretCache st) |};
         console := console st ++ extra;
         watches := watches st;
         timers := rest |}.
Proof.
  intros Ht E. simpl. unfold bind at 1. unfold timer_fires. rewrite Ht.
  unfold delayedReload, bind, get_cache.
  rewrite (readSecretFromDisk_ok _ _ _ _ E). simpl.
  destruct (negb _); simpl.
  - eexists. unfold console_write. simpl.
    rewrite snoc3, <- app_assoc. reflexivity.
  - by eexists.
Qed.

(** X17: the reload scheduled by an event reads the file when its timer
    fires, not when the event arrives: with the watch installed and no
    timer pending, an event on [my-secret] or [..data] followed by its
    timer leaves in the cache what the file holds in the world of the
    timer, whatever it held in the world of the event, and no timer
    pending. *)
Theorem delayed_reload_reads_at_firing_time (w1 w2 : World)
    (eventType name : string) (st : State) (v : string) (stats : Stats) :
  watches st = [store_watch] ->
  timers st = [] ->
  qualifies name = true ->
  disk_read w2 = Ok (v, stats) ->
  let st' := run [(w1, FsEvent SECRETS_STORE eventType (Some name));
                  (w2, TimerFires)] st in
  triple st' = (Some v, Some (now w2), Some (mtime stats))
  /\ timers st' = []
  /\ watches st' = watches st.
Proof.
  intros Hw Ht Hq E. cbv zeta.
  change (run _ st)
    with (fst (step w2 TimerFires
                 (fst (step w1 (FsEvent SECRETS_STORE eventType (Some name))
                         st)))).
  rewrite (step_event_one_watch _ _ _ _ Hw Hq), Ht.
  edestruct (step_timer_loads w2) as [extra ->]; [reflexivity|exact E|].
  by simpl.
Qed.

Lemma delayed_reload_reads_at_firing_time_witness :
  watches pod_running = [store_watch]
  /\ timers pod_running = []
  /\ qualifies "..data" = true
  /\ disk_read rotated_world
     = Ok ("xyz789", {| mtime := "2024-01-20T12:09:00.123Z" |})
  /\ triple (run [(pod_world, FsEvent SECRETS_STORE "rename" (Some "..data"));
                  (rotated_world, TimerFires)] pod_running)
     = (Some "xyz789", Some (now rotated_world),
        Some "2024-01-20T12:09:00.123Z").
Proof.
  do 4 (split; [vm_compute; reflexivity|]).
  exact (proj1 (delayed_reload_reads_at_firing_time pod_world rotated_world
                  "rename" "..data" pod_running "xyz789"
                  {| mtime := "2024-01-20T12:09:00.123Z" |}
                  eq_refl eq_refl eq_refl eq_refl)).
Defined.
